(** * astrbot_plugin_nyscheduler: a shallow embedding of [main.py]

    The plugin [Daily60sNewsPlugin] pushes four feeds (60s news, the
    "moyu" calendar, the gold price and an AI digest) to a list of groups
    at configured times of day.  This development embeds the parts of
    [main.py] that carry behaviour: the JSON walkers
    [_extract_first_string] and [_extract_first_image_url], the clock
    computation [_get_next_push_time], the four retrying fetchers, the
    fan-out [_send_to_groups] and the per-slot push sequence of
    [_daily_task].

    Conventions.
    - A Python [str] is a [string]: the UTF-8 bytes of the text.  Only
      emptiness, prefixes, substrings and concatenation are observed, and
      these agree on bytes and on code points for the literals used here.
    - A parsed JSON document is a [json] tree; objects keep insertion order
      (what [dict.values()] iterates over).  Floating-point numbers are not
      part of the tree: the program treats every non-string scalar alike.
    - Effects are explicit: a computation is a function from a [world] to an
      outcome (a value or a raised exception) and the next [world]. *)

From Stdlib Require Import String Ascii ZArith List Lia Bool DecimalString.
From Stdlib Require Import Permutation.
Import ListNotations.
Open Scope string_scope.
Open Scope Z_scope.

Set Implicit Arguments.

(* ------------------------------------------------------------------ *)
(** * Python values the program manipulates: exceptions and strings *)

Module Py.

Inductive exn_class : Type :=
| Exception | ValueError | TypeError | AttributeError | OverflowError
| FileNotFoundError | ClientError.

(** A raised exception: its class and [str(e)]. *)
Record exn : Type := Raise { exn_class_of : exn_class; exn_msg : string }.

(** The outcome of an expression that may raise. *)
Inductive result (A : Type) : Type :=
| Ok (a : A)
| Raised (e : exn).
Arguments Ok {A} a.
Arguments Raised {A} e.

Definition rbind (A B : Type) (r : result A) (k : A -> result B) : result B :=
  match r with
  | Ok a => k a
  | Raised e => Raised e
  end.

(** Truthiness of a [str]: only the empty string is falsy. *)
Definition truthy_str (s : string) : bool :=
  match s with EmptyString => false | String _ _ => true end.

(** [sub in s] for strings. *)
Definition contains (sub s : string) : bool :=
  match index 0 sub s with Some _ => true | None => false end.

(** [sep.join(parts)] *)
Fixpoint join (sep : string) (parts : list string) : string :=
  match parts with
  | [] => ""
  | [p] => p
  | p :: rest => p ++ sep ++ join sep rest
  end.

(** [s.split(sep)] for a one-character separator: never the empty list. *)
Fixpoint split (sep : ascii) (s : string) : list string :=
  match s with
  | EmptyString => [""]
  | String c rest =>
      if Ascii.eqb c sep then "" :: split sep rest
      else match split sep rest with
           | [] => [String c ""]
           | piece :: pieces => String c piece :: pieces
           end
  end.

(** [str(n)] for an [int]. *)
Definition str_int (n : Z) : string := NilZero.string_of_int (Z.to_int n).

Definition code (c : ascii) : Z := Z.of_nat (nat_of_ascii c).

(** ASCII white space as [str.strip()] and [int()] see it.  White space
    and digits outside ASCII, which Python also accepts, are not
    recognised: such input raises here. *)
Definition is_space (c : ascii) : bool :=
  ((9 <=? code c) && (code c <=? 13)) || ((28 <=? code c) && (code c <=? 32)).

Fixpoint lstrip (s : string) : string :=
  match s with
  | EmptyString => ""
  | String c rest => if is_space c then lstrip rest else s
  end.

Definition reverse (s : string) : string :=
  string_of_list_ascii (rev (list_ascii_of_string s)).

Definition strip (s : string) : string := reverse (lstrip (reverse (lstrip s))).

Definition digit_of (c : ascii) : option Z :=
  if (48 <=? code c) && (code c <=? 57) then Some (code c - 48) else None.

(** Decimal digits with single underscores between them. *)
Fixpoint digits_value (acc : Z) (after_digit : bool) (s : string) : option Z :=
  match s with
  | EmptyString => if after_digit then Some acc else None
  | String c rest =>
      match digit_of c with
      | Some d => digits_value (10 * acc + d) true rest
      | None =>
          if Ascii.eqb c "_" && after_digit then digits_value acc false rest
          else None
      end
  end.

Definition hex_digit (n : Z) : ascii :=
  ascii_of_nat (Z.to_nat (if n <? 10 then 48 + n else 87 + n)).

(** [repr(s)] for a [str]: quotes chosen as Python does, ASCII control
    characters escaped, every other byte kept. *)
Definition repr_char (quote : ascii) (c : ascii) : string :=
  if Ascii.eqb c quote then String "\" (String c "")
  else if Ascii.eqb c "\" then "\\"
  else if code c =? 9 then "\t"
  else if code c =? 10 then "\n"
  else if code c =? 13 then "\r"
  else if (code c <? 32) || (code c =? 127)
       then String "\" (String "x" (String (hex_digit (code c / 16)) (String (hex_digit (code c mod 16)) "")))
  else String c "".

Definition repr_str (s : string) : string :=
  let quote : ascii :=
    if contains "'" s && negb (contains (String (ascii_of_nat 34) "") s)
    then ascii_of_nat 34 else "'"%char in
  String quote (String.concat "" (map (repr_char quote) (list_ascii_of_string s)))
  ++ String quote "".

(** [int(s)] for a [str], base 10. *)
Definition int (s : string) : result Z :=
  let body := strip s in
  let parsed :=
    match body with
    | String "+" rest => digits_value 0 false rest
    | String "-" rest => option_map Z.opp (digits_value 0 false rest)
    | _ => digits_value 0 false body
    end in
  match parsed with
  | Some n => Ok n
  | None => Raised (Raise ValueError ("invalid literal for int() with base 10: " ++ repr_str s))
  end.

End Py.
Import Py.

(* ------------------------------------------------------------------ *)
(** * JSON values as [resp.json()] returns them *)

Module Json.

Unset Elimination Schemes.
Inductive json : Type :=
| JNull
| JBool (b : bool)
| JInt (n : Z)
| JStr (s : string)
| JArr (items : list json)
| JObj (fields : list (string * json)).
Set Elimination Schemes.

(** The induction principle that reaches under arrays and objects. *)
Section JsonInd.
Variable P : json -> Prop.
Hypothesis HNull : P JNull.
Hypothesis HBool : forall b, P (JBool b).
Hypothesis HInt : forall n, P (JInt n).
Hypothesis HStr : forall s, P (JStr s).
Hypothesis HArr : forall items, Forall P items -> P (JArr items).
Hypothesis HObj : forall fields, Forall (fun kv => P (snd kv)) fields -> P (JObj fields).

Fixpoint json_ind' (v : json) : P v :=
  match v with
  | JNull => HNull
  | JBool b => HBool b
  | JInt n => HInt n
  | JStr s => HStr s
  | JArr items =>
      HArr ((fix go (l : list json) : Forall P l :=
               match l with
               | [] => Forall_nil _
               | x :: r => Forall_cons x (json_ind' x) (go r)
               end) items)
  | JObj fields =>
      HObj ((fix go (l : list (string * json)) : Forall (fun kv => P (snd kv)) l :=
               match l with
               | [] => Forall_nil _
               | kv :: r => Forall_cons kv (json_ind' (snd kv)) (go r)
               end) fields)
  end.
End JsonInd.

(** [type(v).__name__] *)
Definition type_name (v : json) : string :=
  match v with
  | JNull => "NoneType"
  | JBool _ => "bool"
  | JInt _ => "int"
  | JStr _ => "str"
  | JArr _ => "list"
  | JObj _ => "dict"
  end.

(** Truthiness, as [or], [not] and [if] test it. *)
Definition truthy (v : json) : bool :=
  match v with
  | JNull => false
  | JBool b => b
  | JInt n => negb (n =? 0)
  | JStr s => truthy_str s
  | JArr items => match items with [] => false | _ => true end
  | JObj fields => match fields with [] => false | _ => true end
  end.

(** [a or b] *)
Definition or_else (a b : json) : json := if truthy a then a else b.

(** [repr(v)] *)
Fixpoint py_repr (v : json) : string :=
  match v with
  | JNull => "None"
  | JBool true => "True"
  | JBool false => "False"
  | JInt n => str_int n
  | JStr s => repr_str s
  | JArr items => "[" ++ join ", " (map py_repr items) ++ "]"
  | JObj fields =>
      "{" ++ join ", " (map (fun kv => repr_str (fst kv) ++ ": " ++ py_repr (snd kv)) fields) ++ "}"
  end.

(** [str(v)], which is also what an f-string field prints. *)
Definition py_str (v : json) : string :=
  match v with
  | JStr s => s
  | _ => py_repr v
  end.

Fixpoint lookup (key : string) (fields : list (string * json)) : option json :=
  match fields with
  | [] => None
  | (k, v) :: rest => if String.eqb k key then Some v else lookup key rest
  end.

(** [v.get(key, default)]: only a dict has the method. *)
Definition get (v : json) (key : string) (default : json) : result json :=
  match v with
  | JObj fields =>
      Ok (match lookup key fields with Some x => x | None => default end)
  | _ => Raised (Raise AttributeError
                   ("'" ++ type_name v ++ "' object has no attribute 'get'"))
  end.

Definition is_continuation (c : ascii) : bool :=
  (128 <=? code c) && (code c <? 192).

(** The characters of a [str]: each UTF-8 lead byte with the continuation
    bytes that follow it. *)
Fixpoint characters (s : string) : list string :=
  match s with
  | EmptyString => []
  | String c rest =>
      match rest with
      | String c' _ =>
          if is_continuation c'
          then match characters rest with
               | g :: gs => String c g :: gs
               | [] => [String c ""]
               end
          else String c "" :: characters rest
      | EmptyString => [String c ""]
      end
  end.

(** [for item in v]: the items of a list, the keys of a dict, the
    characters of a str. *)
Definition iterate (v : json) : result (list json) :=
  match v with
  | JArr items => Ok items
  | JObj fields => Ok (map (fun kv => JStr (fst kv)) fields)
  | JStr s => Ok (map JStr (characters s))
  | _ => Raised (Raise TypeError ("'" ++ type_name v ++ "' object is not iterable"))
  end.

End Json.
Import Json.

(* ------------------------------------------------------------------ *)
(** * The content extractors (main.py, lines 361-389) *)

Module Extractor.

(** The loop shared by both walkers:
<<
    for v in ...:
        res = walk(v)
        if res:
            return res
>>
    falling through (to [return None]) when no element gives a truthy
    result.  Over an object the elements are the fields and [walk] looks at
    the value of each ([for v in obj.values()]). *)
Definition first_truthy (A : Type) (walk : A -> option string) : list A -> option string :=
  fix loop (l : list A) : option string :=
    match l with
    | [] => None
    | v :: rest =>
        match walk v with
        | Some res => if truthy_str res then Some res else loop rest
        | None => loop rest
        end
    end.

Fixpoint _extract_first_string (obj : json) : option string :=
  match obj with
  | JStr s => Some s
  | JObj fields => first_truthy (fun kv => _extract_first_string (snd kv)) fields
  | JArr items => first_truthy _extract_first_string items
  | _ => None
  end.

(** [obj.startswith("http") and any(ext in obj for ext in (".jpg", ".jpeg", ".png"))] *)
Definition looks_like_image_url (obj : string) : bool :=
  prefix "http" obj
  && existsb (fun ext => contains ext obj) [".jpg"; ".jpeg"; ".png"].

Fixpoint _extract_first_image_url (obj : json) : option string :=
  match obj with
  | JStr s => if looks_like_image_url s then Some s else None
  | JObj fields => first_truthy (fun kv => _extract_first_image_url (snd kv)) fields
  | JArr items => first_truthy _extract_first_image_url items
  | _ => None
  end.

(** The strings of a tree in depth-first order: array order, then object
    insertion order.  Object keys are not values and are not listed. *)
Fixpoint strings_dfs (v : json) : list string :=
  match v with
  | JStr s => [s]
  | JArr items => flat_map strings_dfs items
  | JObj fields => flat_map (fun kv => strings_dfs (snd kv)) fields
  | _ => []
  end.

(** A string as it stands; under an array or an object, the first
    non-empty string in depth-first order. *)
Definition first_nonempty (v : json) : option string :=
  match v with
  | JStr s => Some s
  | _ => find truthy_str (strings_dfs v)
  end.



End Extractor.
Import Extractor.

(* ------------------------------------------------------------------ *)
(** * [datetime.time] and naive [datetime.datetime] *)

Module DateTime.

Record time : Type := Time { t_hour : Z; t_minute : Z }.

(** [datetime.time(hour=h, minute=m)] *)
Definition mk_time (h m : Z) : result time :=
  if negb ((0 <=? h) && (h <=? 23)) then Raised (Raise ValueError "hour must be in 0..23")
  else if negb ((0 <=? m) && (m <=? 59)) then Raised (Raise ValueError "minute must be in 0..59")
  else Ok (Time h m).

(** A naive datetime.  The date is kept as its proleptic Gregorian ordinal
    ([date.toordinal()], day 1 is 0001-01-01), which is what Python's own
    date arithmetic goes through. *)
Record datetime : Type := DateTimeOf {
  ordinal : Z;
  hour : Z;
  minute : Z;
  second : Z;
  microsecond : Z
}.

(** [date.max.toordinal()], the ordinal of 9999-12-31. *)
Definition MAXORDINAL : Z := 3652059.

(** [d.replace(hour=h, minute=m, second=s, microsecond=us)] *)
Definition replace (d : datetime) (h m s us : Z) : datetime :=
  {| ordinal := ordinal d; hour := h; minute := m; second := s; microsecond := us |}.

(** Comparison of naive datetimes: field by field, the date first. *)
Definition compare (a b : datetime) : comparison :=
  match ordinal a ?= ordinal b with
  | Eq =>
      match hour a ?= hour b with
      | Eq =>
          match minute a ?= minute b with
          | Eq =>
              match second a ?= second b with
              | Eq => microsecond a ?= microsecond b
              | c => c
              end
          | c => c
          end
      | c => c
      end
  | c => c
  end.

Definition leb (a b : datetime) : bool :=
  match compare a b with Gt => false | _ => true end.

Definition ltb (a b : datetime) : bool :=
  match compare a b with Lt => true | _ => false end.

(** [d + datetime.timedelta(days=n)] *)
Definition add_days (d : datetime) (n : Z) : result datetime :=
  let o := ordinal d + n in
  if (1 <=? o) && (o <=? MAXORDINAL)
  then Ok {| ordinal := o; hour := hour d; minute := minute d;
             second := second d; microsecond := microsecond d |}
  else Raised (Raise OverflowError "date value out of range").

(** [d.weekday()]: Monday is 0, Sunday is 6. *)
Definition weekday (d : datetime) : Z := (ordinal d + 6) mod 7.

(** [min(candidates)] on a non-empty list: the first of the least. *)
Definition min_datetime (first : datetime) (others : list datetime) : datetime :=
  fold_left (fun best c => if ltb c best then c else best) others first.

(** The calendar date of an ordinal, as [datetime._ord2ymd] computes it. *)
Definition DAYS_IN_MONTH (leap : bool) (month : Z) : Z :=
  match month with
  | 2 => if leap then 29 else 28
  | 4 | 6 | 9 | 11 => 30
  | _ => 31
  end.

Definition DAYS_BEFORE_MONTH (leap : bool) (month : Z) : Z :=
  fold_left Z.add (map (DAYS_IN_MONTH leap) (map Z.of_nat (seq 1 (Z.to_nat (month - 1))))) 0.

Definition ord2ymd (o : Z) : Z * Z * Z :=
  let n := o - 1 in
  let n400 := n / 146097 in
  let n := n mod 146097 in
  let n100 := n / 36524 in
  let n := n mod 36524 in
  let n4 := n / 1461 in
  let n := n mod 1461 in
  let n1 := n / 365 in
  let n := n mod 365 in
  let year := n400 * 400 + 1 + n100 * 100 + n4 * 4 + n1 in
  if (n1 =? 4) || (n100 =? 4) then (year - 1, 12, 31)
  else
    let leapyear := (n1 =? 3) && (negb (n4 =? 24) || (n100 =? 3)) in
    let month := Z.shiftr (n + 50) 5 in
    let preceding := DAYS_BEFORE_MONTH leapyear month in
    if n <? preceding
    then (year, month - 1, n - (preceding - DAYS_IN_MONTH leapyear (month - 1)) + 1)
    else (year, month, n - preceding + 1).

Definition zero_pad (width : nat) (n : Z) : string :=
  let digits := str_int n in
  string_of_list_ascii (repeat "0"%char (width - String.length digits)) ++ digits.

(** [d.strftime("%Y-%m-%d")] *)
Definition strftime_ymd (d : datetime) : string :=
  let '(y, m, dd) := ord2ymd (ordinal d) in
  zero_pad 4 y ++ "-" ++ zero_pad 2 m ++ "-" ++ zero_pad 2 dd.

(** [a] is earlier than [b]: the order [compare] decides. *)
Definition earlier (a b : datetime) : Prop :=
  ordinal a < ordinal b
  \/ (ordinal a = ordinal b
      /\ (hour a < hour b
          \/ (hour a = hour b
              /\ (minute a < minute b
                  \/ (minute a = minute b
                      /\ (second a < second b
                          \/ (second a = second b
                              /\ microsecond a < microsecond b))))))).

End DateTime.
Import DateTime.

(* ------------------------------------------------------------------ *)
(** * Effects: the world the plugin acts on *)

Module Effects.

Inductive level : Type := INFO | WARNING | ERROR.

(** [MessageChain().file_image(path)] and [MessageChain().message(text)]. *)
Inductive MessageChain : Type :=
| FileImage (path : string)
| Plain (text : string).

(** What the program does to the outside, in program order. *)
Inductive event : Type :=
| EvNow                                          (* datetime.datetime.now() *)
| EvLog (lvl : level) (msg : string)             (* logger.info / warning / error *)
| EvSleep (seconds : Z)                          (* await asyncio.sleep(seconds) *)
| EvSession                                      (* aiohttp.ClientSession() *)
| EvGet (url : string) (timeout : Z)             (* session.get(url, timeout=timeout) *)
| EvTempFile (name : string) (content : string)  (* NamedTemporaryFile, write, flush, close *)
| EvSend (target : string) (chain : MessageChain) (* context.send_message(target, chain) *)
| EvRemove (path : string).                      (* os.remove(path) *)

(** An HTTP response as the program observes it: the status, the body
    bytes ([read()]), the body decoded with
    [decode("utf-8", errors="ignore")], and what [json(...)] gives. *)
Record response : Type := Response {
  status : Z;
  body : string;
  text : string;
  json_doc : result json
}.

(** The outside answers as a function of everything that happened so far. *)
Record outside : Type := Outside {
  clock : list event -> datetime;                       (* the wall clock *)
  http : list event -> string -> result response;       (* the answer to a GET *)
  tmp_stem : list event -> string;                      (* the name tempfile picks, less the suffix *)
  transport : list event -> string -> MessageChain -> option exn  (* [Some e]: the send raises [e] *)
}.

(** The state threaded through the program: the events so far (oldest
    first) and the paths that exist on disk. *)
Record world : Type := World {
  history : list event;
  files : list string
}.

(** A computation: from a world to a value or a raised exception, and the
    world it leaves. *)
Definition M (A : Type) : Type := world -> result A * world.

Definition ret (A : Type) (a : A) : M A := fun w => (Ok a, w).

Definition bind (A B : Type) (c : M A) (k : A -> M B) : M B :=
  fun w =>
    match c w with
    | (Ok a, w') => k a w'
    | (Raised e, w') => (Raised e, w')
    end.

Definition raise (A : Type) (e : exn) : M A := fun w => (Raised e, w).
Arguments raise {A} e.

(** [try: c / except Exception as e: handler(e)] *)
Definition try_except (A : Type) (c : M A) (handler : exn -> M A) : M A :=
  fun w =>
    match c w with
    | (Ok a, w') => (Ok a, w')
    | (Raised e, w') => handler e w'
    end.

(** A pure expression that may raise. *)
Definition lift (A : Type) (r : result A) : M A := fun w => (r, w).

Definition emit (e : event) (w : world) : world :=
  {| history := history w ++ [e]; files := files w |}.

(** [for x in xs: body(x)] *)
Fixpoint for_each (A : Type) (xs : list A) (body : A -> M unit) : M unit :=
  match xs with
  | [] => ret tt
  | x :: rest => bind (body x) (fun _ => for_each rest body)
  end.

Section Primitives.
Variable out : outside.

Definition datetime_now : M datetime :=
  fun w => (Ok (clock out (history w)), emit EvNow w).

Definition logger (lvl : level) (msg : string) : M unit :=
  fun w => (Ok tt, emit (EvLog lvl msg) w).

Definition sleep (seconds : Z) : M unit :=
  fun w => (Ok tt, emit (EvSleep seconds) w).

Definition ClientSession : M unit :=
  fun w => (Ok tt, emit EvSession w).

Definition session_get (url : string) (timeout : Z) : M response :=
  fun w => (http out (history w) url, emit (EvGet url timeout) w).

(** [f = NamedTemporaryFile(delete=False, suffix=sfx); f.write(b);
    f.flush(); f.close()], giving [f.name]. *)
Definition NamedTemporaryFile (sfx : string) (b : string) : M string :=
  fun w =>
    let name := tmp_stem out (history w) ++ sfx in
    (Ok name, {| history := history w ++ [EvTempFile name b];
                 files := name :: files w |}).

Definition send_message (target : string) (chain : MessageChain) : M unit :=
  fun w =>
    (match transport out (history w) target chain with
     | None => Ok tt
     | Some e => Raised e
     end, emit (EvSend target chain) w).

(** [os.remove(path)] *)
Definition os_remove (path : string) : M unit :=
  fun w =>
    if existsb (String.eqb path) (files w)
    then (Ok tt, {| history := history w ++ [EvRemove path];
                    files := filter (fun p => negb (String.eqb path p)) (files w) |})
    else (Raised (Raise FileNotFoundError ("[Errno 2] No such file or directory: " ++ repr_str path)),
          emit (EvRemove path) w).
End Primitives.

End Effects.
Import Effects.

Declare Scope monad_scope.
Delimit Scope monad_scope with M.
Notation "x <- c ;; k" := (bind c (fun x => k))
  (at level 100, c at next level, right associativity) : monad_scope.
Notation "c ;; k" := (bind c (fun _ => k))
  (at level 100, right associativity) : monad_scope.
Open Scope monad_scope.

(* ------------------------------------------------------------------ *)
(** * The plugin object *)

Module Plugin.

(** The attributes [__init__] sets on [self]. *)
Record plugin : Type := PluginOf {
  groups : list string;
  push_times : list string;
  news_api : string;
  format : string;
  moyu_format : string;
  moyu_api : string;
  enable_news : bool;
  enable_moyu : bool;
  enable_gold : bool;
  enable_ai : bool;
  gold_format : string;
  gold_api : string;
  ai_format : string;
  ai_api : string;
  api_key : string;
  timeout : Z
}.

(** [[t.strip() for t in push_time.split(",")]] *)
Definition split_push_time (push_time : string) : list string :=
  map strip (split "," push_time).

End Plugin.
Import Plugin.

(* ------------------------------------------------------------------ *)
(** * The schedule clock (main.py, lines 49-69) *)

Module Clock.

(** [h, m = map(int, time_str.split(":"))] evaluates [int] on the pieces
    one by one while unpacking; [datetime.time(hour=h, minute=m)] then
    checks the ranges. *)
Definition _parse_time (time_str : string) : result time :=
  match split ":" time_str with
  | [] => Raised (Raise ValueError "not enough values to unpack (expected 2, got 0)")
  | [a] =>
      rbind (int a) (fun _ =>
      Raised (Raise ValueError "not enough values to unpack (expected 2, got 1)"))
  | [a; b] =>
      rbind (int a) (fun h =>
      rbind (int b) (fun m =>
      mk_time h m))
  | a :: b :: c :: _ =>
      rbind (int a) (fun _ =>
      rbind (int b) (fun _ =>
      rbind (int c) (fun _ =>
      Raised (Raise ValueError "too many values to unpack (expected 2)"))))
  end.

Section WithOutside.
Variable out : outside.
Variable self : plugin.

(** The body of [for t_str in self.push_times], [candidates] being the
    list built so far. *)
Definition push_time_step (now : datetime) (candidates : list datetime)
           (t_str : string) : M (list datetime) :=
  try_except
    (t <- lift (_parse_time t_str) ;;
     let candidate := replace now (t_hour t) (t_minute t) 0 0 in
     candidate <- (if leb candidate now
                   then lift (add_days candidate 1)
                   else ret candidate) ;;
     ret (candidates ++ [candidate])%list)
    (fun e =>
       logger WARNING ("无效推送时间 '" ++ t_str ++ "': " ++ exn_msg e) ;;
       ret candidates).

Fixpoint push_time_loop (now : datetime) (candidates : list datetime)
         (todo : list string) : M (list datetime) :=
  match todo with
  | [] => ret candidates
  | t_str :: rest =>
      candidates' <- push_time_step now candidates t_str ;;
      push_time_loop now candidates' rest
  end.

Definition _get_next_push_time : M datetime :=
  now <- datetime_now out ;;
  candidates <- push_time_loop now [] (push_times self) ;;
  match candidates with
  | [] => raise (Raise ValueError "没有有效的推送时间配置")
  | c :: cs => ret (min_datetime c cs)
  end.
End WithOutside.

(** The candidate the specification assigns to a trigger: today at
    [h:m:00.000000], moved to the next day when that is not after [now]. *)
Definition spec_candidate (now : datetime) (t : time) : datetime :=
  let today := DateTimeOf (ordinal now) (t_hour t) (t_minute t) 0 0 in
  if leb today now
  then DateTimeOf (ordinal now + 1) (t_hour t) (t_minute t) 0 0
  else today.

(** The triggers of a configuration: the strings that parse. *)
Fixpoint valid_triggers (strs : list string) : list time :=
  match strs with
  | [] => []
  | s :: rest =>
      match _parse_time s with
      | Ok t => t :: valid_triggers rest
      | Raised _ => valid_triggers rest
      end
  end.


(** The plugin with another list of push times. *)
Definition with_push_times (self : plugin) (times : list string) : plugin :=
  {| groups := groups self; push_times := times; news_api := news_api self;
     format := format self; moyu_format := moyu_format self; moyu_api := moyu_api self;
     enable_news := enable_news self; enable_moyu := enable_moyu self;
     enable_gold := enable_gold self; enable_ai := enable_ai self;
     gold_format := gold_format self; gold_api := gold_api self;
     ai_format := ai_format self; ai_api := ai_api self;
     api_key := api_key self; timeout := timeout self |}.

(** The warning logged for a string that fails with [e]. *)
Definition invalid_time_warning (t_str : string) (e : exn) : event :=
  EvLog WARNING ("无效推送时间 '" ++ t_str ++ "': " ++ exn_msg e).

(** What one configured string contributes: its candidate, or the
    exception that sends the loop to its [except] branch. *)
Definition candidate_of (now : datetime) (t_str : string) : result datetime :=
  rbind (_parse_time t_str) (fun t =>
    let candidate := replace now (t_hour t) (t_minute t) 0 0 in
    if leb candidate now then add_days candidate 1 else Ok candidate).

Definition candidates_of (now : datetime) (strs : list string) : list datetime :=
  flat_map (fun t_str =>
              match candidate_of now t_str with Ok c => [c] | Raised _ => [] end) strs.

Definition warnings_of (now : datetime) (strs : list string) : list event :=
  flat_map (fun t_str =>
              match candidate_of now t_str with
              | Ok _ => []
              | Raised e => [invalid_time_warning t_str e]
              end) strs.

End Clock.
Import Clock.

(* ------------------------------------------------------------------ *)
(** * The fetchers (main.py, lines 154-229 and 298-359) *)

Module Fetch.

Section WithOutside.
Variable out : outside.
Variable self : plugin.

(** [retries = 3] in each of the four fetchers. *)
Definition retries : Z := 3.

(** The retry loop the four fetchers share, word for word but for the
    log tag and the text that goes before the last error:
<<
    for attempt in range(retries):
        try:
            <attempt_body, which returns (value, True)>
        except Exception as e:
            logger.error(f"{tag} 请求失败 {attempt + 1}/{retries}: {e}")
            if attempt == retries - 1:
                return f"{failure}{e}", False
            await asyncio.sleep(1)
    return "未知错误", False
>>  *)
Definition retry_loop (tag failure : string) (attempt_body : M string)
  : list Z -> M (string * bool) :=
  fix loop (attempts : list Z) : M (string * bool) :=
    match attempts with
    | [] => ret ("未知错误", false)
    | attempt :: rest =>
        try_except
          (value <- attempt_body ;; ret (value, true))
          (fun e =>
             logger ERROR (tag ++ " 请求失败 " ++ str_int (attempt + 1) ++ "/"
                           ++ str_int retries ++ ": " ++ exn_msg e) ;;
             if attempt =? retries - 1
             then ret (failure ++ exn_msg e, false)
             else (sleep 1 ;; loop rest))
    end.

(** [range(n)] *)
Definition range (n : Z) : list Z := map Z.of_nat (seq 0 (Z.to_nat n)).

Definition with_api_key (url : string) : string :=
  if truthy_str (api_key self) then url ++ "&apikey=" ++ api_key self else url.

Definition write_jpeg (b : string) : M string :=
  NamedTemporaryFile out ".jpeg" b.

(** [session.get(v)] for a value taken out of a JSON document: a URL
    that is not a str is refused before any request is made. *)
Definition session_get_value (v : json) : M response :=
  match v with
  | JStr url => session_get out url (timeout self)
  | _ => raise (Raise TypeError "Constructor parameter should be str")
  end.

(** ** [_generic_fetch_text] *)
Definition generic_text_attempt (api_url fmt : string) : M string :=
  let use_json := String.eqb fmt "image" in
  let url := with_api_key (api_url ++ "?format=" ++ (if use_json then "json" else "text")) in
  ClientSession ;;
  resp <- session_get out url (timeout self) ;;
  if negb (status resp =? 200)
  then raise (Raise Exception ("状态码: " ++ str_int (status resp)))
  else if use_json then
    data <- lift (json_doc resp) ;;
    let txt := _extract_first_string data in
    ret (match txt with
         | Some t => if truthy_str t then t else py_str data
         | None => py_str data
         end)
  else ret (text resp).

Definition _generic_fetch_text (api_url fmt : string) : M (string * bool) :=
  retry_loop "[通用文本]" "接口报错: " (generic_text_attempt api_url fmt) (range retries).

(** ** [_generic_fetch_image_path] *)
Definition generic_image_attempt (api_url fmt : string) : M string :=
  let use_json := String.eqb fmt "text" in
  let url := with_api_key (api_url ++ "?format=" ++ (if use_json then "json" else "image")) in
  ClientSession ;;
  resp <- session_get out url (timeout self) ;;
  if negb (status resp =? 200)
  then raise (Raise Exception ("状态码: " ++ str_int (status resp)))
  else
    b <- (if use_json then
            data <- lift (json_doc resp) ;;
            match _extract_first_image_url data with
            | Some img_url =>
                if truthy_str img_url then
                  ir <- session_get out img_url (timeout self) ;;
                  if negb (status ir =? 200)
                  then raise (Raise Exception ("图片状态码: " ++ str_int (status ir)))
                  else ret (body ir)
                else raise (Raise Exception "JSON未找到图片URL")
            | None => raise (Raise Exception "JSON未找到图片URL")
            end
          else ret (body resp)) ;;
    write_jpeg b.

Definition _generic_fetch_image_path (api_url fmt : string) : M (string * bool) :=
  retry_loop "[通用图片]" "接口报错: " (generic_image_attempt api_url fmt) (range retries).

(** ** [_fetch_news_text] *)
Definition news_text_attempt (fmt date : string) : M string :=
  let url := with_api_key (news_api self ++ "?date=" ++ date ++ "&format=" ++ fmt) in
  ClientSession ;;
  response <- session_get out url (timeout self) ;;
  if negb (status response =? 200)
  then raise (Raise Exception ("API返回错误代码: " ++ str_int (status response)))
  else if String.eqb fmt "json" then
    data <- lift (json_doc response) ;;
    payload <- lift (get data "data" (JObj [])) ;;
    date_field <- lift (get payload "date" JNull) ;;
    let date_str := or_else date_field (JStr date) in
    tip_field <- lift (get payload "tip" JNull) ;;
    let tip := or_else tip_field (JStr "") in
    news_field <- lift (get payload "news" JNull) ;;
    let news_list := or_else news_field (JArr []) in
    items <- lift (iterate news_list) ;;
    let headline := py_str date_str ++ " 每日60秒新闻" in
    let lines := headline :: map (fun item => "• " ++ py_str item) items in
    let tip_line := "提示：" ++ py_str tip in
    let lines := if truthy tip then List.app lines [tip_line] else lines in
    ret (join (String (ascii_of_nat 10) "") lines)
  else ret (text response).

Definition _fetch_news_text : M (string * bool) :=
  let fmt := if String.eqb (format self) "image" then "json" else "text" in
  now <- datetime_now out ;;
  let date := strftime_ymd now in
  retry_loop "[mnews]" "接口报错，请联系管理员:" (news_text_attempt fmt date) (range retries).

(** ** [_fetch_news_image_path] *)
Definition news_image_attempt (fmt date : string) : M string :=
  let url := with_api_key (news_api self ++ "?date=" ++ date ++ "&format=" ++ fmt) in
  ClientSession ;;
  response <- session_get out url (timeout self) ;;
  if negb (status response =? 200)
  then raise (Raise Exception ("API返回错误代码: " ++ str_int (status response)))
  else if String.eqb fmt "json" then
    data <- lift (json_doc response) ;;
    payload <- lift (get data "data" (JObj [])) ;;
    image_field <- lift (get payload "image" JNull) ;;
    img_url <- (if truthy image_field then ret image_field
                else lift (get payload "cover" JNull)) ;;
    if negb (truthy img_url)
    then raise (Raise Exception "JSON中未找到图片URL")
    else
      img_resp <- session_get_value img_url ;;
      if negb (status img_resp =? 200)
      then raise (Raise Exception ("图片下载失败，状态码: " ++ str_int (status img_resp)))
      else write_jpeg (body img_resp)
  else write_jpeg (body response).

Definition _fetch_news_image_path : M (string * bool) :=
  let fmt := if String.eqb (format self) "text" then "json" else "image" in
  now <- datetime_now out ;;
  let date := strftime_ymd now in
  retry_loop "[mnews]" "接口报错，请联系管理员:" (news_image_attempt fmt date) (range retries).

(** ** The per-source wrappers *)
Definition _moyu_fetch_text := _generic_fetch_text (moyu_api self) (moyu_format self).
Definition _moyu_fetch_image_path := _generic_fetch_image_path (moyu_api self) (moyu_format self).
Definition _gold_fetch_text := _generic_fetch_text (gold_api self) (gold_format self).
Definition _gold_fetch_image_path := _generic_fetch_image_path (gold_api self) (gold_format self).
Definition _ai_fetch_text := _generic_fetch_text (ai_api self) (ai_format self).
Definition _ai_fetch_image_path := _generic_fetch_image_path (ai_api self) (ai_format self).
End WithOutside.

(** ** Observations on the events of a fetch *)

Definition is_session (e : event) : bool :=
  match e with EvSession => true | _ => false end.

(** One [ClientSession] is opened per attempt, so sessions count attempts. *)
Definition attempts (h : list event) : nat := length (filter is_session h).



(** Requests and the temporary file: what an attempt does besides opening
    its session. *)
Definition quiet (e : event) : Prop :=
  match e with EvGet _ _ | EvTempFile _ _ => True | _ => False end.

Definition one_attempt (evs : list event) : Prop :=
  exists rest, evs = EvSession :: rest /\ Forall quiet rest.

(** The line logged when attempt number [i] (from 1) fails with [e]. *)
Definition failure_line (tag : string) (i : Z) (e : string) : string :=
  tag ++ " 请求失败 " ++ str_int i ++ "/" ++ str_int retries ++ ": " ++ e.

(** [evs] is a run of failed attempts numbered from [i], with the errors
    [errs], each followed by its log line and one sleep of one second. *)
Fixpoint failed_attempts (tag : string) (i : Z) (errs : list string)
         (evs : list event) : Prop :=
  match errs with
  | [] => evs = []
  | e :: errs' =>
      exists a tail,
        one_attempt a
        /\ evs = (a ++ [EvLog ERROR (failure_line tag i e); EvSleep 1] ++ tail)%list
        /\ failed_attempts tag (i + 1) errs' tail
  end.

(** A returned string is not empty; nothing is said of a raised exception. *)
Definition ok_nonempty (r : result string) : Prop :=
  match r with
  | Ok v => v <> ""
  | Raised _ => True
  end.

(** No answer of the outside is an empty text or the empty JSON string. *)
Definition never_empty (out : outside) : Prop :=
  forall h url resp,
    http out h url = Ok resp -> text resp <> "" /\ json_doc resp <> Ok (JStr "").

(** An attempt opens one session and, besides, only makes requests and
    writes the temporary file. *)
Definition attempt_shape (body : M string) : Prop :=
  forall w, exists a,
    one_attempt a /\ history (snd (body w)) = (history w ++ a)%list.

(** What the retry loop does from any world [w] once [done] attempts have
    failed and [budget] more may fail before the last one.  It does not
    raise.  It makes some failed attempts, each followed by its log line
    and one sleep of one second, and then one more attempt, from the world
    [w0].  With the success flag on, that attempt returned the payload and
    the loop ends in the world the attempt left: nothing follows it.  With
    the success flag off, the budget is used up, that attempt raised, its
    error is logged as the third, and the payload is the text [failure]
    followed by that error. *)
Definition discipline_from (tag failure : string) (body : M string)
           (done : Z) (budget : nat) (fetch : M (string * bool)) : Prop :=
  forall w, exists payload ok errs failed w0,
    fst (fetch w) = Ok (payload, ok)
    /\ failed_attempts tag (done + 1) errs failed
    /\ history w0 = (history w ++ failed)%list
    /\ (ok = true ->
          (length errs <= budget)%nat
          /\ body w0 = (Ok payload, snd (fetch w)))
    /\ (ok = false ->
          exists ex,
            length errs = budget
            /\ fst (body w0) = Raised ex
            /\ snd (fetch w)
               = emit (EvLog ERROR (failure_line tag retries (exn_msg ex)))
                      (snd (body w0))
            /\ payload = failure ++ exn_msg ex).

(** A fetcher with retry budget 3: no attempt made yet, two may fail
    before the last. *)
Definition retry_discipline (tag failure : string) (body : M string)
           (fetch : M (string * bool)) : Prop :=
  discipline_from tag failure body 0 2 fetch.


End Fetch.
Import Fetch.

(* ------------------------------------------------------------------ *)
(** * Fan-out to the groups (main.py, lines 87-108) *)

Module Dispatch.

Section WithOutside.
Variable out : outside.
Variable self : plugin.

(** [for target in targets: send_message(target, chain); sleep(2)] *)
Definition send_to_each (targets : list string) (chain : MessageChain) : M unit :=
  for_each targets
    (fun target => send_message out target chain ;; sleep 2).

Definition _send_to_groups (fetch_func : M (string * bool)) (is_image : bool) : M unit :=
  try_except
    (if is_image then
       fetched <- fetch_func ;;
       let '(path, ok) := fetched in
       if negb ok then raise (Raise Exception path)
       else
         send_to_each (groups self) (FileImage path) ;;
         try_except (os_remove path) (fun _ => ret tt)
     else
       fetched <- fetch_func ;;
       let '(content, ok) := fetched in
       if negb ok then raise (Raise Exception content)
       else send_to_each (groups self) (Plain content))
    (fun e => logger ERROR ("[推送] 失败: " ++ exn_msg e)).
End WithOutside.

(** Observations on a history. *)
Definition is_send (e : event) : bool :=
  match e with EvSend _ _ => true | _ => false end.

Definition is_remove_of (path : string) (e : event) : bool :=
  match e with EvRemove p => String.eqb p path | _ => false end.

Definition sends (h : list event) : list event := filter is_send h.

Definition removals (path : string) (h : list event) : nat :=
  length (filter (is_remove_of path) h).

(** The events of a fan-out over [targets] in which every send is delivered. *)
Definition paced (chain : MessageChain) (targets : list string) : list event :=
  flat_map (fun t => [EvSend t chain; EvSleep 2]) targets.

(** Every send of the fan-out over [targets], begun after the events [h],
    is delivered. *)
Fixpoint all_delivered (out : outside) (chain : MessageChain) (h : list event)
         (targets : list string) : Prop :=
  match targets with
  | [] => True
  | t :: rest =>
      transport out h t chain = None
      /\ all_delivered out chain (h ++ [EvSend t chain; EvSleep 2]) rest
  end.

End Dispatch.
Import Dispatch.

(* ------------------------------------------------------------------ *)
(** * The pushes of one firing (main.py, lines 421-445)

    [_daily_task] sleeps until the next push time and then runs this
    sequence; the sleeping loop around it is not embedded. *)

Module Scheduler.

Section WithOutside.
Variable out : outside.
Variable self : plugin.

Definition push_news : M unit :=
  _send_to_groups out self
    (if String.eqb (format self) "image"
     then _fetch_news_image_path out self else _fetch_news_text out self)
    (String.eqb (format self) "image").

Definition push_moyu : M unit :=
  _send_to_groups out self
    (if String.eqb (moyu_format self) "image"
     then _moyu_fetch_image_path out self else _moyu_fetch_text out self)
    (String.eqb (moyu_format self) "image").

Definition push_gold : M unit :=
  _send_to_groups out self
    (if String.eqb (gold_format self) "image"
     then _gold_fetch_image_path out self else _gold_fetch_text out self)
    (String.eqb (gold_format self) "image").

Definition push_ai : M unit :=
  _send_to_groups out self
    (if String.eqb (ai_format self) "image"
     then _ai_fetch_image_path out self else _ai_fetch_text out self)
    (String.eqb (ai_format self) "image").

(** [weekday not in (5, 6)] *)
Definition ai_pushes_on (weekday : Z) : bool :=
  negb (existsb (Z.eqb weekday) [5; 6]).

Definition _daily_task_pushes : M unit :=
  (if enable_news self then push_news else ret tt) ;;
  (if enable_moyu self then push_moyu else ret tt) ;;
  (if enable_gold self then push_gold else ret tt) ;;
  (if enable_ai self then
     now <- datetime_now out ;;
     if ai_pushes_on (weekday now) then push_ai
     else logger INFO "[AI资讯] 周末不推送"
   else ret tt).

End WithOutside.

End Scheduler.
Import Scheduler.

(* ------------------------------------------------------------------ *)
(** * The commands (main.py, lines 128-152, 235-289 and 391-410)

    The names of this module are used qualified: [push_news] is the admin
    command here and the first push of a firing in [Scheduler]. *)

Module Handlers.

(** What the handlers use of an [AstrMessageEvent]: the conversation its
    replies go to and the name of its sender. *)
Record AstrMessageEvent : Type := EventOf {
  origin : string;
  sender_name : string
}.

Section WithOutside.
Variable out : outside.
Variable self : plugin.

(** [await event.send(chain)]: a send to the conversation of the event.
    [event.plain_result(text)] is the chain [Plain text]. *)
Definition event_send (event : AstrMessageEvent) (chain : MessageChain) : M unit :=
  send_message out (origin event) chain.

Definition _handle_fetch (event : AstrMessageEvent)
           (image_func text_func : M (string * bool)) (fmt : string) : M unit :=
  try_except
    (if String.eqb fmt "image" then
       fetched <- image_func ;;
       let '(path, ok) := fetched in
       if ok then
         event_send event (FileImage path) ;;
         try_except (os_remove path) (fun _ => ret tt)
       else event_send event (Plain path)
     else
       fetched <- text_func ;;
       let '(content, ok) := fetched in
       if ok then event_send event (Plain content)
       else event_send event (Plain content))
    (fun e => event_send event (Plain ("获取失败: " ++ exn_msg e))).

(** [get_today_news], which [cmd_news], [cmd_60s], [cmd_60sec] and
    [cmd_morning_news] call. *)
Definition get_today_news (event : AstrMessageEvent) : M unit :=
  _handle_fetch event (_fetch_news_image_path out self) (_fetch_news_text out self)
                (format self).

(** [cmd_moyu_simple], which [cmd_moyu_calendar] and [moyu_today] call. *)
Definition cmd_moyu_simple (event : AstrMessageEvent) : M unit :=
  _handle_fetch event (_moyu_fetch_image_path out self) (_moyu_fetch_text out self)
                (moyu_format self).

(** [cmd_gold_simple], which [cmd_gold_alt] and [gold_today] call. *)
Definition cmd_gold_simple (event : AstrMessageEvent) : M unit :=
  _handle_fetch event (_gold_fetch_image_path out self) (_gold_fetch_text out self)
                (gold_format self).

(** [cmd_ai_simple], which [cmd_ai_news] and [ai_today] call. *)
Definition cmd_ai_simple (event : AstrMessageEvent) : M unit :=
  _handle_fetch event (_ai_fetch_image_path out self) (_ai_fetch_text out self)
                (ai_format self).

(** The admin command [push_news]: the push, then the one text it yields. *)
Definition push_news (event : AstrMessageEvent) : M string :=
  _send_to_groups out self
    (if String.eqb (format self) "image"
     then _fetch_news_image_path out self else _fetch_news_text out self)
    (String.eqb (format self) "image") ;;
  ret (sender_name event ++ ": 已推送新闻").
End WithOutside.

End Handlers.

(* ------------------------------------------------------------------ *)
(** * What a computation adds to the world *)

Module Observe.

(** Every event the computation adds satisfies [P]. *)
Definition adds_only (A : Type) (P : event -> Prop) (c : M A) : Prop :=
  forall w, exists new,
    history (snd (c w)) = (history w ++ new)%list /\ Forall P new.

(** The computation leaves the files on disk as they were. *)
Definition keeps_files (A : Type) (c : M A) : Prop :=
  forall w, files (snd (c w)) = files w.

(** A request, if the event is one, is for [url]. *)
Definition asks_only (url : string) (e : event) : Prop :=
  match e with EvGet u _ => u = url | _ => True end.

(** The event is a line of the warning log. *)
Definition is_warning (e : event) : Prop :=
  match e with EvLog WARNING _ => True | _ => False end.

(** [HH:MM] with two digits each, and without padding. *)
Definition hhmm (h m : Z) : string := zero_pad 2 h ++ ":" ++ zero_pad 2 m.
Definition hm (h m : Z) : string := str_int h ++ ":" ++ str_int m.

(** The character [c] does not occur in [s]. *)
Fixpoint free_of (c : ascii) (s : string) : bool :=
  match s with
  | EmptyString => true
  | String d rest => negb (Ascii.eqb d c) && free_of c rest
  end.

(** The address a generic feed is asked at when the format asked for is
    the one configured: [image] for the format [image], [text] otherwise. *)
Definition native_url (self : plugin) (api_url fmt : string) : string :=
  with_api_key self
    (api_url ++ "?format=" ++ (if String.eqb fmt "image" then "image" else "text")).

(** The same for the news, on the date [date]. *)
Definition native_news_url (self : plugin) (date : string) : string :=
  with_api_key self
    (news_api self ++ "?date=" ++ date ++ "&format="
     ++ (if String.eqb (format self) "image" then "image" else "text")).

(** A request, if the event is one, is for the news in the configured
    format, on some date. *)
Definition asks_news (self : plugin) (e : event) : Prop :=
  match e with
  | EvGet u _ => exists date, u = native_news_url self date
  | _ => True
  end.

(** What an attempt of an image fetch leaves on disk when run from [w]:
    the file it returns when it succeeds, nothing new when it raises. *)
Definition attempt_files (body : M string) : Prop :=
  forall w,
    match body w with
    | (Ok v, w1) => files w1 = v :: files w
    | (Raised _, w1) => files w1 = files w
    end.

(** What a fetch, run from [w] with the outcome [r], leaves on disk: one
    more file, the returned path, when the success flag is on; nothing new
    when it is off.  A fetch does not raise. *)
Definition files_after (w : world) (r : result (string * bool) * world) : Prop :=
  match r with
  | (Ok (path, true), w1) => files w1 = path :: files w
  | (Ok (_, false), w1) => files w1 = files w
  | (Raised _, _) => False
  end.

End Observe.
Import Observe.

(* ------------------------------------------------------------------ *)
(** * Concrete situations used below *)

Module Scenarios.

(** 2026-11-04, a Wednesday, at 08:30; and 2026-11-07, a Saturday. *)
Definition wednesday_0830 : datetime := DateTimeOf 739924 8 30 0 0.

(** An endpoint that cannot be reached. *)
Definition unreachable : list event -> string -> result response :=
  fun _ _ => Raised (Raise ClientError "Cannot connect to host").

(** An endpoint that always answers 200 with the same response. *)
Definition answering (r : response) : list event -> string -> result response :=
  fun _ _ => Ok r.

Definition delivering : list event -> string -> MessageChain -> option exn :=
  fun _ _ _ => None.

Definition outside_at (now : datetime)
           (net : list event -> string -> result response)
           (tr : list event -> string -> MessageChain -> option exn) : outside :=
  Outside (fun _ => now) net (fun _ => "/tmp/tmpk3v9x2qa") tr.

(** A configuration with three groups; every feed is enabled. *)
Definition plugin_with (times : list string) (fmt : string) : plugin :=
  {| groups := ["group:1"; "group:2"; "group:3"];
     push_times := times;
     news_api := "https://api.nycnm.cn/API/60s.php";
     format := fmt;
     moyu_format := fmt;
     moyu_api := "https://api.nycnm.cn/API/moyu.php";
     enable_news := true;
     enable_moyu := true;
     enable_gold := true;
     enable_ai := true;
     gold_format := fmt;
     gold_api := "https://api.nycnm.cn/API/jinjia.php";
     ai_format := fmt;
     ai_api := "https://api.nycnm.cn/API/aizixun.php";
     api_key := "";
     timeout := 30 |}.

Definition start : world := World [] [].



Definition plain_text (t : string) : response :=
  Response 200 t t (Raised (Raise ValueError "Expecting value: line 1 column 1 (char 0)")).

Definition json_answer (v : json) : response :=
  Response 200 "" "" (Ok v).

(** A transport that refuses the second send it is asked for. *)
Definition second_send_fails : list event -> string -> MessageChain -> option exn :=
  fun h _ _ =>
    if (length (sends h) =? 1)%nat
    then Some (Raise Exception "send failed")
    else None.

End Scenarios.
Import Scenarios.

(* ================================================================== *)
(** * Properties *)

Unset Implicit Arguments.

(* ------------------------------------------------------------------ *)
(** ** Lists *)

Section ListFacts.
Variable A : Type.
Variable p : A -> bool.

Lemma find_app (l1 l2 : list A) :
  find p (l1 ++ l2)%list
  = match find p l1 with Some x => Some x | None => find p l2 end.
Proof.
  induction l1 as [|x l1 IH]; simpl; [reflexivity|].
  destruct (p x); [reflexivity | exact IH].
Qed.

Lemma find_first (l : list A) :
  match find p l with
  | Some x => exists before after,
                l = (before ++ x :: after)%list /\ p x = true
                /\ Forall (fun y => p y = false) before
  | None => Forall (fun y => p y = false) l
  end.
Proof.
  induction l as [|x l IH]; simpl; [constructor|].
  destruct (p x) eqn:Hx.
  - exists [], l. repeat split; [assumption | constructor].
  - destruct (find p l) as [y|].
    + destruct IH as (before & after & -> & Hy & Hb).
      exists (x :: before), after. repeat split; [assumption|].
      constructor; assumption.
    + constructor; assumption.
Qed.
End ListFacts.

(* ------------------------------------------------------------------ *)
(** ** The content extractors *)

Section ExtractorFacts.

Lemma truthy_str_nonempty (s : string) : truthy_str s = true <-> s <> "".
Proof.
  destruct s; simpl; split; intro H; try reflexivity; try discriminate.
  exfalso; apply H; reflexivity.
Qed.

(** The loop finds what [find] finds when each step of the walk, with
    falsy results dropped, does. *)
Lemma first_truthy_finds (A : Type) (walk : A -> option string)
      (strs : A -> list string) (p : string -> bool) (l : list A) :
  Forall (fun x =>
            match walk x with
            | Some r => if truthy_str r then Some r else None
            | None => None
            end = find p (strs x)) l ->
  first_truthy walk l = find p (flat_map strs l).
Proof.
  induction 1 as [|x l Hx _ IH]; simpl; [reflexivity|].
  rewrite find_app, <- Hx, IH.
  destruct (walk x) as [r|]; [|reflexivity].
  destruct (truthy_str r); reflexivity.
Qed.

Lemma first_nonempty_filtered (v : json) :
  match first_nonempty v with
  | Some r => if truthy_str r then Some r else None
  | None => None
  end = find truthy_str (strings_dfs v).
Proof.
  destruct v as [| | |s|items|fields]; simpl; try reflexivity.
  - destruct (find truthy_str _) as [r|] eqn:E; [|reflexivity].
    apply find_some in E. destruct E as [_ ->]. reflexivity.
  - destruct (find truthy_str _) as [r|] eqn:E; [|reflexivity].
    apply find_some in E. destruct E as [_ ->]. reflexivity.
Qed.

Lemma extract_first_string_first_nonempty (v : json) :
  _extract_first_string v = first_nonempty v.
Proof.
  induction v as [| | | |items IH|fields IH] using json_ind'; try reflexivity.
  - simpl. apply first_truthy_finds.
    eapply Forall_impl; [|exact IH]. intros x Hx. simpl in Hx.
    rewrite Hx. apply first_nonempty_filtered.
  - simpl. apply (first_truthy_finds (string * json) (fun kv => _extract_first_string (snd kv))
                                      (fun kv => strings_dfs (snd kv))).
    eapply Forall_impl; [|exact IH]. intros x Hx. simpl in Hx.
    rewrite Hx. apply first_nonempty_filtered.
Qed.





Lemma falsy_str_empty (s : string) : truthy_str s = false <-> s = "".
Proof. destruct s; simpl; split; intro H; try reflexivity; discriminate. Qed.

(** C4, as stated, fails: under an array or an object the walker passes
    over empty strings.  In [["", "a"]] the first string in depth-first
    order is the empty one and ["a"] is returned; in [{"k": ""}] a string
    exists and nothing is returned. *)
Lemma extract_first_string_skips_empty_counterexample :
  hd_error (strings_dfs (JArr [JStr ""; JStr "a"])) = Some ""
  /\ _extract_first_string (JArr [JStr ""; JStr "a"]) = Some "a"
  /\ _extract_first_string (JArr [JStr ""; JStr "a"])
     <> hd_error (strings_dfs (JArr [JStr ""; JStr "a"]))
  /\ strings_dfs (JObj [("k", JStr "")]) = [""]
  /\ _extract_first_string (JObj [("k", JStr "")]) = None.
Proof. repeat split; try reflexivity. simpl. discriminate. Qed.

(** C4, amended.  [_extract_first_string] returns a string just as it
    is, empty or not.  On any other value it returns the first non-empty
    string in depth-first order (array order and object insertion order),
    every string before it being empty; and it returns none exactly when
    the value is not a string and every string in the tree is empty. *)
Theorem extract_first_string_spec (v : json) :
  match v with
  | JStr s => _extract_first_string v = Some s
  | _ =>
      match _extract_first_string v with
      | Some r => exists before after,
                    strings_dfs v = (before ++ r :: after)%list
                    /\ r <> "" /\ Forall (fun s => s = "") before
      | None => Forall (fun s => s = "") (strings_dfs v)
      end
  end
  /\ (_extract_first_string v = None
      <-> (forall s, v <> JStr s) /\ Forall (fun s => s = "") (strings_dfs v)).
Proof.
  assert (Hpos : match find truthy_str (strings_dfs v) with
                 | Some r => exists before after,
                               strings_dfs v = (before ++ r :: after)%list
                               /\ r <> "" /\ Forall (fun s => s = "") before
                 | None => Forall (fun s => s = "") (strings_dfs v)
                 end).
  { pose proof (find_first string truthy_str (strings_dfs v)) as H.
    destruct (find truthy_str (strings_dfs v)) as [r|].
    - destruct H as (before & after & E & Hr & Hb).
      exists before, after. repeat split; [exact E | now apply truthy_str_nonempty |].
      eapply Forall_impl; [|exact Hb]. intros y. apply falsy_str_empty.
    - eapply Forall_impl; [|exact H]. intros y. apply falsy_str_empty. }
  rewrite extract_first_string_first_nonempty.
  split.
  - destruct v; simpl; try exact Hpos. reflexivity.
  - split.
    + intro Hnone. split.
      * intros s ->. discriminate.
      * destruct v; simpl in *; try discriminate;
          try (rewrite Hnone in Hpos); exact Hpos.
    + intros [Hv Hall].
      assert (Hfind : find truthy_str (strings_dfs v) = None).
      { destruct (find truthy_str (strings_dfs v)) as [r|] eqn:E; [|reflexivity].
        apply find_some in E. destruct E as [Hin Hr].
        rewrite Forall_forall in Hall. rewrite (Hall r Hin) in Hr. discriminate. }
      destruct v; simpl; try exact Hfind; try reflexivity.
      exfalso. eapply Hv. reflexivity.
Qed.


End ExtractorFacts.

(* ------------------------------------------------------------------ *)
(** ** The order on datetimes *)

Section DateTimeFacts.

Lemma compare_Lt_earlier (a b : datetime) : compare a b = Lt <-> earlier a b.
Proof.
  unfold compare, earlier.
  destruct (Z.compare_spec (ordinal a) (ordinal b));
    destruct (Z.compare_spec (hour a) (hour b));
    destruct (Z.compare_spec (minute a) (minute b));
    destruct (Z.compare_spec (second a) (second b));
    destruct (Z.compare_spec (microsecond a) (microsecond b));
    split; intro; try discriminate; try reflexivity; lia.
Qed.

Lemma compare_Gt_earlier (a b : datetime) : compare a b = Gt <-> earlier b a.
Proof.
  unfold compare, earlier.
  destruct (Z.compare_spec (ordinal a) (ordinal b));
    destruct (Z.compare_spec (hour a) (hour b));
    destruct (Z.compare_spec (minute a) (minute b));
    destruct (Z.compare_spec (second a) (second b));
    destruct (Z.compare_spec (microsecond a) (microsecond b));
    split; intro; try discriminate; try reflexivity; lia.
Qed.

Lemma ltb_earlier (a b : datetime) : ltb a b = true <-> earlier a b.
Proof.
  rewrite <- compare_Lt_earlier. unfold ltb.
  destruct (compare a b); split; intro; try reflexivity; discriminate.
Qed.

Lemma leb_not_earlier (a b : datetime) : leb a b = true <-> ~ earlier b a.
Proof.
  rewrite <- compare_Gt_earlier. unfold leb.
  destruct (compare a b); split; intro H; try reflexivity; try discriminate.
  exfalso; apply H; reflexivity.
Qed.


Lemma ltb_false_leb (a b : datetime) : ltb a b = false <-> leb b a = true.
Proof.
  rewrite leb_not_earlier, <- ltb_earlier.
  destruct (ltb a b); split; intro H; try reflexivity; try discriminate.
  exfalso; apply H; reflexivity.
Qed.

Lemma leb_refl (a : datetime) : leb a a = true.
Proof. apply leb_not_earlier. unfold earlier. lia. Qed.

Lemma leb_trans (a b c : datetime) :
  leb a b = true -> leb b c = true -> leb a c = true.
Proof. rewrite !leb_not_earlier. unfold earlier. lia. Qed.

Lemma ltb_leb (a b : datetime) : ltb a b = true -> leb a b = true.
Proof. rewrite ltb_earlier, leb_not_earlier. unfold earlier. lia. Qed.

(** [min] returns a member of the list that no member is earlier than. *)
Lemma min_datetime_In (first : datetime) (others : list datetime) :
  In (min_datetime first others) (first :: others).
Proof.
  unfold min_datetime. revert first.
  induction others as [|c others IH]; intro first; simpl; [left; reflexivity|].
  destruct (IH (if ltb c first then c else first)) as [H|H].
  - destruct (ltb c first); [right; left | left]; exact H.
  - right; right; exact H.
Qed.

Lemma min_datetime_least (first : datetime) (others : list datetime) (x : datetime) :
  In x (first :: others) -> leb (min_datetime first others) x = true.
Proof.
  unfold min_datetime. revert first x.
  induction others as [|c others IH]; intros first x Hin; simpl.
  - destruct Hin as [<-|[]]. apply leb_refl.
  - assert (Hstep : leb (if ltb c first then c else first) first = true
                    /\ leb (if ltb c first then c else first) c = true).
    { destruct (ltb c first) eqn:E.
      - split; [apply ltb_leb; exact E | apply leb_refl].
      - split; [apply leb_refl | apply ltb_false_leb; exact E]. }
    destruct Hstep as [Hf Hc].
    destruct Hin as [<-|[<-|Hin]].
    + eapply leb_trans; [|exact Hf]. apply IH. left; reflexivity.
    + eapply leb_trans; [|exact Hc]. apply IH. left; reflexivity.
    + apply IH. right; exact Hin.
Qed.

End DateTimeFacts.

(* ------------------------------------------------------------------ *)
(** ** The schedule clock *)

Section ClockFacts.

Lemma world_eta (w : world) : World (history w) (files w) = w.
Proof. destruct w; reflexivity. Qed.

Lemma push_time_step_run (now : datetime) (cands : list datetime)
      (t_str : string) (w : world) :
  push_time_step now cands t_str w
  = match candidate_of now t_str with
    | Ok c => (Ok (cands ++ [c])%list, w)
    | Raised e => (Ok cands, emit (invalid_time_warning t_str e) w)
    end.
Proof.
  unfold push_time_step, candidate_of, try_except, bind, lift, ret, logger,
    invalid_time_warning, rbind.
  destruct (_parse_time t_str) as [t|e]; simpl; [|reflexivity].
  destruct (leb _ now); simpl; [|reflexivity].
  destruct (add_days _ 1); reflexivity.
Qed.

Lemma push_time_loop_run (now : datetime) (strs : list string) :
  forall (cands : list datetime) (w : world),
    push_time_loop now cands strs w
    = (Ok (cands ++ candidates_of now strs)%list,
       World (history w ++ warnings_of now strs) (files w)).
Proof.
  induction strs as [|t_str strs IH]; intros cands w.
  - simpl. unfold ret. rewrite !app_nil_r, world_eta. reflexivity.
  - simpl. unfold bind. rewrite push_time_step_run.
    unfold candidates_of, warnings_of. simpl.
    destruct (candidate_of now t_str) as [c|e]; rewrite IH; simpl.
    + rewrite <- app_assoc. reflexivity.
    + rewrite <- app_assoc. reflexivity.
Qed.

Lemma get_next_push_time_run (out : outside) (self : plugin) (w : world) :
  _get_next_push_time out self w
  = let now := clock out (history w) in
    let w' := World ((history w ++ [EvNow]) ++ warnings_of now (push_times self))
                    (files w) in
    match candidates_of now (push_times self) with
    | [] => (Raised (Raise ValueError "没有有效的推送时间配置"), w')
    | c :: cs => (Ok (min_datetime c cs), w')
    end.
Proof.
  unfold _get_next_push_time, bind, datetime_now.
  rewrite push_time_loop_run. simpl.
  destruct (candidates_of _ _); reflexivity.
Qed.

Lemma candidate_of_in_range (now : datetime) (t_str : string) :
  1 <= ordinal now < MAXORDINAL ->
  candidate_of now t_str
  = rbind (_parse_time t_str) (fun t => Ok (spec_candidate now t)).
Proof.
  intro Hr. unfold candidate_of, spec_candidate, rbind, replace.
  destruct (_parse_time t_str) as [t|e]; [|reflexivity].
  simpl. destruct (leb _ now); [|reflexivity].
  unfold add_days. simpl.
  replace ((1 <=? ordinal now + 1) && (ordinal now + 1 <=? MAXORDINAL)) with true;
    [reflexivity|].
  symmetry. apply andb_true_iff. split; apply Z.leb_le; lia.
Qed.

Lemma candidates_of_in_range (now : datetime) (strs : list string) :
  1 <= ordinal now < MAXORDINAL ->
  candidates_of now strs = map (spec_candidate now) (valid_triggers strs).
Proof.
  intro Hr. unfold candidates_of.
  induction strs as [|t_str strs IH]; simpl; [reflexivity|].
  rewrite (candidate_of_in_range now t_str Hr), IH. unfold rbind.
  destruct (_parse_time t_str); reflexivity.
Qed.










End ClockFacts.

(* ------------------------------------------------------------------ *)
(** ** The retry loop *)

Section RetryFacts.
Variables tag failure : string.
Variable body : M string.

Lemma retry_loop_success (attempt : Z) (rest : list Z) (w w1 : world) (v : string) :
  body w = (Ok v, w1) ->
  retry_loop tag failure body (attempt :: rest) w = (Ok (v, true), w1).
Proof.
  intro E. simpl. unfold try_except, bind, ret. rewrite E. reflexivity.
Qed.

Lemma retry_loop_failure (attempt : Z) (rest : list Z) (w w1 : world) (e : exn) :
  body w = (Raised e, w1) ->
  retry_loop tag failure body (attempt :: rest) w
  = let logged := emit (EvLog ERROR (failure_line tag (attempt + 1) (exn_msg e))) w1 in
    if attempt =? retries - 1
    then (Ok (failure ++ exn_msg e, false), logged)
    else retry_loop tag failure body rest (emit (EvSleep 1) logged).
Proof.
  intro E. cbv zeta. unfold failure_line. change (retries - 1) with 2. simpl.
  unfold try_except, bind, ret, logger, sleep. rewrite E. simpl.
  destruct (attempt =? 2); reflexivity.
Qed.

Hypothesis body_shape : attempt_shape body.

(** The last attempt of the budget. *)
Lemma discipline_last :
  discipline_from tag failure body 2 0 (retry_loop tag failure body [2]).
Proof.
  intro w. destruct (body w) as [[v|e] w1] eqn:E.
  - rewrite (retry_loop_success 2 [] w w1 v E).
    exists v, true, [], [], w. simpl. rewrite app_nil_r.
    repeat split; auto; try discriminate.
  - rewrite (retry_loop_failure 2 [] w w1 e E). simpl.
    exists (failure ++ exn_msg e), false, [], [], w. simpl. rewrite app_nil_r.
    repeat split; auto; try discriminate.
    intros _. exists e. rewrite E. repeat split; reflexivity.
Qed.

(** One more attempt in front of a loop that keeps the discipline. *)
Lemma discipline_step (done : Z) (budget : nat) (rest : list Z) :
  done < 2 ->
  discipline_from tag failure body (done + 1) budget (retry_loop tag failure body rest) ->
  discipline_from tag failure body done (S budget)
                  (retry_loop tag failure body (done :: rest)).
Proof.
  intros Hdone IH w. destruct (body w) as [[v|e] w1] eqn:E.
  - rewrite (retry_loop_success done rest w w1 v E).
    exists v, true, [], [], w. simpl. rewrite app_nil_r.
    repeat split; auto; try discriminate. lia.
  - rewrite (retry_loop_failure done rest w w1 e E). cbv zeta.
    replace (done =? retries - 1) with false
      by (symmetry; apply Z.eqb_neq; unfold retries; lia).
    set (w' := emit (EvSleep 1) (emit (EvLog ERROR _) w1)).
    destruct (IH w') as (payload & ok & errs & failed & w0 & Hrun & Hfailed & Hw0 & Hok & Hko).
    destruct (body_shape w) as (a & Ha & Hhist). rewrite E in Hhist. simpl in Hhist.
    exists payload, ok, (exn_msg e :: errs),
      (a ++ [EvLog ERROR (failure_line tag (done + 1) (exn_msg e)); EvSleep 1] ++ failed)%list,
      w0.
    split; [exact Hrun|]. split; [|split; [|split]].
    + simpl. exists a, failed. repeat split; [exact Ha | exact Hfailed].
    + rewrite Hw0. subst w'. simpl. rewrite Hhist.
      rewrite <- !app_assoc. reflexivity.
    + intro H. destruct (Hok H) as [Hlen Hbody]. split; [simpl; lia | exact Hbody].
    + intro H. destruct (Hko H) as (ex & Hlen & Hbody & Hend & Hpay).
      exists ex. repeat split; [simpl; lia | exact Hbody | exact Hend | exact Hpay].
Qed.

Lemma retry_loop_discipline :
  retry_discipline tag failure body (retry_loop tag failure body (range retries)).
Proof.
  unfold retry_discipline. change (range retries) with [0; 1; 2].
  apply discipline_step; [lia|].
  apply (discipline_step 1 0 [2]); [lia|].
  exact discipline_last.
Qed.

End RetryFacts.

(* ------------------------------------------------------------------ *)
(** ** The attempts of the four fetchers *)

(** Run an attempt symbolically: unfold the monad, then split on whatever
    the outcome still depends on. *)
Ltac run_attempt :=
  unfold bind, ret, raise, lift, ClientSession, session_get, write_jpeg,
    NamedTemporaryFile, session_get_value, emit;
  cbn -[py_str py_repr join iterate str_int String.append ok_nonempty];
  repeat match goal with
         | |- context [match ?x with _ => _ end] =>
             lazymatch type of x with
             | prod _ _ => fail
             | _ => destruct x eqn:?;
                    cbn -[py_str py_repr join iterate str_int String.append ok_nonempty]
             end
         end.

Ltac shape_leaf :=
  rewrite <- ?app_assoc; simpl;
  match goal with
  | |- exists a, one_attempt a /\ (history ?w ++ ?evs)%list = (history ?w ++ a)%list =>
      exists evs; split;
      [ eexists; split; [reflexivity | repeat first [exact I | constructor]]
      | reflexivity ]
  end.

Section AttemptFacts.
Variable out : outside.
Variable self : plugin.

Lemma generic_text_attempt_shape (api_url fmt : string) :
  attempt_shape (generic_text_attempt out self api_url fmt).
Proof. intro w. unfold generic_text_attempt. run_attempt; shape_leaf. Qed.

Lemma generic_image_attempt_shape (api_url fmt : string) :
  attempt_shape (generic_image_attempt out self api_url fmt).
Proof. intro w. unfold generic_image_attempt. run_attempt; shape_leaf. Qed.

Lemma news_text_attempt_shape (fmt date : string) :
  attempt_shape (news_text_attempt out self fmt date).
Proof. intro w. unfold news_text_attempt. run_attempt; shape_leaf. Qed.

Lemma news_image_attempt_shape (fmt date : string) :
  attempt_shape (news_image_attempt out self fmt date).
Proof. intro w. unfold news_image_attempt. run_attempt; shape_leaf. Qed.

End AttemptFacts.

(* ------------------------------------------------------------------ *)
(** ** Counting attempts, sleeps and logged errors *)

Section CountFacts.









End CountFacts.

(* ------------------------------------------------------------------ *)
(** ** The fetchers: retries *)

Section FetchFacts.
Variable out : outside.
Variable self : plugin.

Lemma generic_fetch_text_discipline (api_url fmt : string) :
  retry_discipline "[通用文本]" "接口报错: "
                   (generic_text_attempt out self api_url fmt)
                   (_generic_fetch_text out self api_url fmt).
Proof.
  apply retry_loop_discipline. apply generic_text_attempt_shape.
Qed.

Lemma generic_fetch_image_path_discipline (api_url fmt : string) :
  retry_discipline "[通用图片]" "接口报错: "
                   (generic_image_attempt out self api_url fmt)
                   (_generic_fetch_image_path out self api_url fmt).
Proof.
  apply retry_loop_discipline. apply generic_image_attempt_shape.
Qed.



End FetchFacts.



(* ------------------------------------------------------------------ *)
(** ** The fetchers: payloads *)

Section StringFacts.

Lemma append_nonempty_l (s t : string) : s <> "" -> s ++ t <> "".
Proof. destruct s; [intro H; exfalso; apply H; reflexivity | discriminate]. Qed.

Lemma append_nonempty_r (s t : string) : t <> "" -> s ++ t <> "".
Proof. destruct s; simpl; [auto | discriminate]. Qed.

Lemma join_nonempty (sep first : string) (rest : list string) :
  first <> "" -> join sep (first :: rest) <> "".
Proof.
  intro H. destruct rest; simpl; [exact H | apply append_nonempty_l; exact H].
Qed.

Lemma str_int_nonempty (n : Z) : str_int n <> "".
Proof.
  unfold str_int. destruct (Z.to_int n) as [d|d]; simpl; [|discriminate].
  destruct d; discriminate.
Qed.

Lemma py_repr_nonempty (v : json) : py_repr v <> "".
Proof.
  destruct v as [|[|]|n|s|items|fields]; simpl; try discriminate.
  apply str_int_nonempty.
Qed.

(** [str(v)] is empty only for the empty string. *)
Lemma py_str_empty (v : json) : py_str v = "" -> v = JStr "".
Proof.
  destruct v as [| | |s| |]; simpl; intro H;
    try (exfalso; revert H;
         first [ apply (py_repr_nonempty JNull)
               | apply (py_repr_nonempty (JBool _))
               | apply (py_repr_nonempty (JInt _))
               | apply (py_repr_nonempty (JArr _))
               | apply (py_repr_nonempty (JObj _)) ]).
  subst s. reflexivity.
Qed.

End StringFacts.

Section PayloadFacts.
Variable out : outside.
Variable self : plugin.

Lemma ok_nonempty_value (body : M string) (w w1 : world) (v : string) :
  ok_nonempty (fst (body w)) -> body w = (Ok v, w1) -> v <> "".
Proof. intros H E. rewrite E in H. exact H. Qed.

Lemma generic_image_attempt_value (api_url fmt : string) (w : world) :
  ok_nonempty (fst (generic_image_attempt out self api_url fmt w)).
Proof.
  unfold generic_image_attempt. run_attempt; try exact I;
    apply append_nonempty_r; discriminate.
Qed.

Lemma news_image_attempt_value (fmt date : string) (w : world) :
  ok_nonempty (fst (news_image_attempt out self fmt date w)).
Proof.
  unfold news_image_attempt. run_attempt; try exact I;
    apply append_nonempty_r; discriminate.
Qed.

Hypothesis answers : never_empty out.

Lemma generic_text_attempt_value (api_url fmt : string) (w : world) :
  ok_nonempty (fst (generic_text_attempt out self api_url fmt w)).
Proof.
  unfold generic_text_attempt. run_attempt; try exact I;
    match goal with
    | Hr : http out _ _ = Ok ?r |- _ => destruct (answers _ _ _ Hr) as [Ht Hj]
    end;
    try exact Ht;
    try (apply truthy_str_nonempty; assumption);
    intro Hs; apply py_str_empty in Hs; subst; apply Hj; assumption.
Qed.

Lemma news_text_attempt_value (fmt date : string) (w : world) :
  ok_nonempty (fst (news_text_attempt out self fmt date w)).
Proof.
  unfold news_text_attempt. run_attempt; try exact I;
    try (apply join_nonempty; apply append_nonempty_r; discriminate);
    match goal with
    | Hr : http out _ _ = Ok ?r |- _ => destruct (answers _ _ _ Hr) as [Ht Hj]
    end;
    exact Ht.
Qed.

End PayloadFacts.

Section PayloadTheorems.
Variable out : outside.
Variable self : plugin.

Lemma discipline_success_value (tag failure : string) (body : M string)
      (fetch : M (string * bool)) :
  retry_discipline tag failure body fetch ->
  (forall w, ok_nonempty (fst (body w))) ->
  forall w payload, fst (fetch w) = Ok (payload, true) -> payload <> "".
Proof.
  intros Hd Hbody w payload Hrun.
  destruct (Hd w) as (p & ok & errs & failed & w0 & Hrun' & _ & _ & Hok & _).
  rewrite Hrun in Hrun'. injection Hrun' as <- <-.
  destruct (Hok eq_refl) as [_ E].
  exact (ok_nonempty_value body w0 _ payload (Hbody w0) E).
Qed.

End PayloadTheorems.

(** C9, as stated, fails: an endpoint that answers 200 with an empty body
    makes the text fetch succeed with the empty text. *)
Lemma empty_text_success_counterexample :
  fst (_moyu_fetch_text (outside_at wednesday_0830 (answering (plain_text "")) delivering)
                        (plugin_with ["08:00"] "text") start)
  = Ok ("", true)
  /\ ~ (forall payload,
           fst (_moyu_fetch_text
                  (outside_at wednesday_0830 (answering (plain_text "")) delivering)
                  (plugin_with ["08:00"] "text") start)
           = Ok (payload, true) ->
           payload <> "").
Proof.
  split; [reflexivity|].
  intro H. apply (H ""); reflexivity.
Qed.

(** C9, amended.  An image fetch that reports success returns a file path
    that is not empty.  A text fetch that reports success returns a text
    that is not empty, provided no answer of the endpoint has an empty
    decoded body or is the empty JSON string. *)
Theorem successful_fetch_payload (out : outside) (self : plugin) :
  (forall api_url fmt w path,
      fst (_generic_fetch_image_path out self api_url fmt w) = Ok (path, true) ->
      path <> "")
  /\ (forall w path,
         fst (_fetch_news_image_path out self w) = Ok (path, true) -> path <> "")
  /\ (never_empty out ->
      (forall api_url fmt w txt,
          fst (_generic_fetch_text out self api_url fmt w) = Ok (txt, true) ->
          txt <> "")
      /\ (forall w txt,
             fst (_fetch_news_text out self w) = Ok (txt, true) -> txt <> "")).
Proof.
  split; [|split].
  - intros api_url fmt. eapply discipline_success_value.
    + apply generic_fetch_image_path_discipline.
    + apply generic_image_attempt_value.
  - intros w path. unfold _fetch_news_image_path, bind, datetime_now.
    eapply discipline_success_value.
    + apply retry_loop_discipline. apply news_image_attempt_shape.
    + apply news_image_attempt_value.
  - intro Hne. split.
    + intros api_url fmt. eapply discipline_success_value.
      * apply generic_fetch_text_discipline.
      * apply generic_text_attempt_value. exact Hne.
    + intros w txt. unfold _fetch_news_text, bind, datetime_now.
      eapply discipline_success_value.
      * apply retry_loop_discipline. apply news_text_attempt_shape.
      * apply news_text_attempt_value. exact Hne.
Qed.

(** With an endpoint that always answers the text [ok], the text fetch
    succeeds with it; and the image fetch succeeds with the name of the
    file it wrote. *)
Lemma successful_fetch_payload_witness :
  (forall txt,
      fst (_generic_fetch_text
             (outside_at wednesday_0830 (answering (plain_text "ok")) delivering)
             (plugin_with ["08:00"] "text")
             "https://api.nycnm.cn/API/moyu.php" "text" start)
      = Ok (txt, true) -> txt <> "")
  /\ fst (_generic_fetch_text
            (outside_at wednesday_0830 (answering (plain_text "ok")) delivering)
            (plugin_with ["08:00"] "text")
            "https://api.nycnm.cn/API/moyu.php" "text" start)
     = Ok ("ok", true)
  /\ fst (_generic_fetch_image_path
            (outside_at wednesday_0830 (answering (plain_text "ok")) delivering)
            (plugin_with ["08:00"] "text")
            "https://api.nycnm.cn/API/moyu.php" "image" start)
     = Ok ("/tmp/tmpk3v9x2qa.jpeg", true).
Proof.
  destruct (successful_fetch_payload
              (outside_at wednesday_0830 (answering (plain_text "ok")) delivering)
              (plugin_with ["08:00"] "text")) as (_ & _ & Htext).
  assert (Hne : never_empty
                  (outside_at wednesday_0830 (answering (plain_text "ok")) delivering)).
  { intros h url resp E. injection E as <-. split; discriminate. }
  destruct (Htext Hne) as [Hgeneric _].
  split; [|split; vm_compute; reflexivity].
  intros txt. exact (Hgeneric "https://api.nycnm.cn/API/moyu.php" "text" start txt).
Defined.

(* ------------------------------------------------------------------ *)
(** ** JSON answers in which the extractor finds nothing *)




(* ------------------------------------------------------------------ *)
(** ** Fan-out to the groups *)

Section DispatchFacts.
Variable out : outside.
Variable chain : MessageChain.

Lemma send_to_each_cons (t : string) (targets : list string) (w : world) :
  send_to_each out (t :: targets) chain w
  = match transport out (history w) t chain with
    | None =>
        send_to_each out targets chain
                     (World (history w ++ [EvSend t chain; EvSleep 2]) (files w))
    | Some e => (Raised e, emit (EvSend t chain) w)
    end.
Proof.
  unfold send_to_each. simpl. unfold bind, send_message, sleep, emit. simpl.
  destruct (transport out (history w) t chain); simpl; [reflexivity|].
  rewrite <- app_assoc. reflexivity.
Qed.

Lemma fanout_delivered (targets : list string) :
  forall w,
    all_delivered out chain (history w) targets ->
    send_to_each out targets chain w
    = (Ok tt, World (history w ++ paced chain targets) (files w)).
Proof.
  induction targets as [|t targets IH]; intros w Hall.
  - unfold send_to_each, ret. simpl. rewrite app_nil_r, world_eta. reflexivity.
  - destruct Hall as [Ht Hrest].
    rewrite send_to_each_cons, Ht, IH; [|exact Hrest].
    simpl. rewrite <- app_assoc. reflexivity.
Qed.

Lemma fanout_failure (before : list string) :
  forall w target after e,
    all_delivered out chain (history w) before ->
    transport out (history w ++ paced chain before) target chain = Some e ->
    send_to_each out (before ++ target :: after) chain w
    = (Raised e,
       World (history w ++ paced chain before ++ [EvSend target chain]) (files w)).
Proof.
  induction before as [|t before IH]; intros w target after e Hall Hfail.
  - simpl in *. rewrite app_nil_r in Hfail.
    rewrite send_to_each_cons, Hfail. reflexivity.
  - destruct Hall as [Ht Hrest].
    simpl app. rewrite send_to_each_cons, Ht, (IH _ target after e).
    + simpl. rewrite <- app_assoc. reflexivity.
    + exact Hrest.
    + simpl. simpl in Hfail. rewrite <- app_assoc. exact Hfail.
Qed.

Lemma sends_app (h1 h2 : list event) : sends (h1 ++ h2) = (sends h1 ++ sends h2)%list.
Proof. unfold sends. apply filter_app. Qed.

Lemma removals_app (path : string) (h1 h2 : list event) :
  removals path (h1 ++ h2) = (removals path h1 + removals path h2)%nat.
Proof. unfold removals. rewrite filter_app, length_app. reflexivity. Qed.

Lemma sends_paced (targets : list string) :
  sends (paced chain targets) = map (fun t => EvSend t chain) targets.
Proof.
  induction targets as [|t targets IH]; [reflexivity|].
  unfold sends, paced in *. simpl. rewrite IH. reflexivity.
Qed.

Lemma removals_paced (path : string) (targets : list string) :
  removals path (paced chain targets) = 0%nat.
Proof.
  induction targets as [|t targets IH]; [reflexivity|].
  unfold removals, paced in *. simpl. exact IH.
Qed.

End DispatchFacts.

Section SendToGroupsFacts.
Variable out : outside.
Variable self : plugin.

Lemma send_to_groups_never_raises (fetch_func : M (string * bool)) (is_image : bool)
      (w : world) :
  fst (_send_to_groups out self fetch_func is_image w) = Ok tt.
Proof.
  unfold _send_to_groups, try_except.
  match goal with
  | |- fst (match ?c with _ => _ end) = _ => destruct c as [[[]|e] w']
  end; reflexivity.
Qed.

(** [os.remove] inside its own [try]: one call, and the path is gone. *)
Lemma remove_quietly (path : string) (w : world) :
  exists fs,
    try_except (os_remove path) (fun _ => ret tt) w
    = (Ok tt, World (history w ++ [EvRemove path]) fs)
    /\ ~ In path fs.
Proof.
  unfold try_except, os_remove.
  destruct (existsb (String.eqb path) (files w)) eqn:E.
  - eexists. split; [reflexivity|].
    intro Hin. apply filter_In in Hin. destruct Hin as [_ Hneq].
    rewrite String.eqb_refl in Hneq. discriminate.
  - exists (files w). split; [reflexivity|].
    intro Hin.
    assert (Hex : existsb (String.eqb path) (files w) = true).
    { apply existsb_exists. exists path. split; [exact Hin | apply String.eqb_refl]. }
    congruence.
Qed.

End SendToGroupsFacts.

Section SendToGroupsRuns.
Variable out : outside.
Variable self : plugin.

Lemma send_to_groups_failed_fetch (fetch_func : M (string * bool)) (is_image : bool)
      (reason : string) (w w1 : world) :
  fetch_func w = (Ok (reason, false), w1) ->
  _send_to_groups out self fetch_func is_image w
  = (Ok tt, emit (EvLog ERROR ("[推送] 失败: " ++ reason)) w1).
Proof.
  intro E. unfold _send_to_groups, try_except, bind.
  destruct is_image; rewrite E; reflexivity.
Qed.

Lemma send_image_all_delivered (fetch_func : M (string * bool)) (path : string)
      (w w1 : world) :
  fetch_func w = (Ok (path, true), w1) ->
  all_delivered out (FileImage path) (history w1) (groups self) ->
  exists fs,
    _send_to_groups out self fetch_func true w
    = (Ok tt,
       World (history w1 ++ paced (FileImage path) (groups self) ++ [EvRemove path]) fs)
    /\ ~ In path fs.
Proof.
  intros E Hall. unfold _send_to_groups, try_except at 1, bind.
  rewrite E. change (negb true) with false. cbv beta iota.
  rewrite (fanout_delivered out (FileImage path) (groups self) w1 Hall).
  destruct (remove_quietly path
              (World (history w1 ++ paced (FileImage path) (groups self)) (files w1)))
    as (fs & Hrm & Hgone).
  rewrite Hrm. exists fs. simpl. rewrite <- app_assoc. split; [reflexivity | exact Hgone].
Qed.

Lemma send_image_failed_send (fetch_func : M (string * bool)) (path : string)
      (w w1 : world) (before : list string) (target : string) (after : list string)
      (e : exn) :
  fetch_func w = (Ok (path, true), w1) ->
  groups self = (before ++ target :: after)%list ->
  all_delivered out (FileImage path) (history w1) before ->
  transport out (history w1 ++ paced (FileImage path) before) target (FileImage path)
  = Some e ->
  _send_to_groups out self fetch_func true w
  = (Ok tt,
     World (history w1 ++ paced (FileImage path) before
              ++ [EvSend target (FileImage path);
                  EvLog ERROR ("[推送] 失败: " ++ exn_msg e)])
           (files w1)).
Proof.
  intros E Hg Hall Hfail. unfold _send_to_groups, try_except at 1, bind.
  rewrite E. change (negb true) with false. cbv beta iota. rewrite Hg.
  rewrite (fanout_failure out (FileImage path) before w1 target after e Hall Hfail).
  unfold logger, emit. simpl. rewrite <- !app_assoc. reflexivity.
Qed.

End SendToGroupsRuns.

(** C2, as stated, fails.  Three groups, an image fetched to a temporary
    file, and a transport that refuses the second send: two sends are
    attempted, not three, and the file is not removed. *)
Lemma image_fanout_stops_at_failure_counterexample :
  let run :=
    _send_to_groups (outside_at wednesday_0830 (answering (plain_text "JPEG")) second_send_fails)
                    (plugin_with ["08:00"] "image")
                    (_moyu_fetch_image_path
                       (outside_at wednesday_0830 (answering (plain_text "JPEG")) second_send_fails)
                       (plugin_with ["08:00"] "image"))
                    true start in
  length (sends (history (snd run))) = 2%nat
  /\ removals "/tmp/tmpk3v9x2qa.jpeg" (history (snd run)) = 0%nat
  /\ In "/tmp/tmpk3v9x2qa.jpeg" (files (snd run))
  /\ ~ (length (sends (history (snd run))) = 3%nat
        /\ removals "/tmp/tmpk3v9x2qa.jpeg" (history (snd run)) = 1%nat).
Proof.
  vm_compute. repeat split; auto. intros [H _]. discriminate H.
Qed.

(** C2, amended.  After a fetch that gave an image file, [_send_to_groups]
    never raises.  When every send is delivered it makes exactly one send
    per group, in order, each followed by a sleep of two seconds, and then
    removes the file, exactly once and after the last group.  When a send
    raises, that is logged and the fan-out ends there: the sends attempted
    are those to the groups up to and including the one that failed, and no
    later group is tried. *)
Theorem send_image_to_groups_spec (out : outside) (self : plugin)
        (fetch_func : M (string * bool)) (path : string) (w w1 : world) :
  fetch_func w = (Ok (path, true), w1) ->
  let chain := FileImage path in
  let run := _send_to_groups out self fetch_func true w in
  fst run = Ok tt
  /\ (all_delivered out chain (history w1) (groups self) ->
      history (snd run)
      = (history w1 ++ paced chain (groups self) ++ [EvRemove path])%list
      /\ sends (history (snd run))
         = (sends (history w1) ++ map (fun t => EvSend t chain) (groups self))%list
      /\ removals path (history (snd run)) = S (removals path (history w1))
      /\ ~ In path (files (snd run)))
  /\ (forall before target after e,
         groups self = (before ++ target :: after)%list ->
         all_delivered out chain (history w1) before ->
         transport out (history w1 ++ paced chain before) target chain = Some e ->
         sends (history (snd run))
         = (sends (history w1) ++ map (fun t => EvSend t chain) (before ++ [target]))%list
         /\ In (EvLog ERROR ("[推送] 失败: " ++ exn_msg e)) (history (snd run))).
Proof.
  intros E chain run. split; [apply send_to_groups_never_raises|]. split.
  - intro Hall.
    destruct (send_image_all_delivered out self fetch_func path w w1 E Hall)
      as (fs & Hrun & Hgone).
    subst run. rewrite Hrun. simpl. repeat split.
    + rewrite !sends_app, sends_paced, app_nil_r. reflexivity.
    + rewrite !removals_app, removals_paced. unfold removals at 2. simpl.
      rewrite String.eqb_refl. simpl. lia.
    + exact Hgone.
  - intros before target after e Hg Hall Hfail.
    subst run.
    rewrite (send_image_failed_send out self fetch_func path w w1
               before target after e E Hg Hall Hfail).
    simpl. split.
    + rewrite !sends_app, sends_paced, map_app. reflexivity.
    + apply in_or_app. right. apply in_or_app. right. right. left. reflexivity.
Qed.

(** Three groups and a transport that delivers: three sends, then the
    file is removed. *)
Lemma send_image_to_groups_spec_witness :
  let out := outside_at wednesday_0830 (answering (plain_text "JPEG")) delivering in
  let self := plugin_with ["08:00"] "image" in
  let run := _send_to_groups out self (_moyu_fetch_image_path out self) true start in
  sends (history (snd run))
  = [EvSend "group:1" (FileImage "/tmp/tmpk3v9x2qa.jpeg");
     EvSend "group:2" (FileImage "/tmp/tmpk3v9x2qa.jpeg");
     EvSend "group:3" (FileImage "/tmp/tmpk3v9x2qa.jpeg")]
  /\ removals "/tmp/tmpk3v9x2qa.jpeg" (history (snd run)) = 1%nat
  /\ ~ In "/tmp/tmpk3v9x2qa.jpeg" (files (snd run)).
Proof.
  intros out self run.
  destruct (send_image_to_groups_spec
              out self (_moyu_fetch_image_path out self) "/tmp/tmpk3v9x2qa.jpeg"
              start
              (World [EvSession;
                      EvGet "https://api.nycnm.cn/API/moyu.php?format=image" 30;
                      EvTempFile "/tmp/tmpk3v9x2qa.jpeg" "JPEG"]
                     ["/tmp/tmpk3v9x2qa.jpeg"])
              eq_refl) as (_ & Hall & _).
  destruct Hall as (_ & Hsends & Hrm & Hgone).
  - vm_compute. auto.
  - split; [exact Hsends|]. split; [exact Hrm | exact Hgone].
Defined.

(** C3, as stated, fails.  With an endpoint that cannot be reached the
    fetch fails after its three attempts, and nothing at all is sent to the
    three groups: the reason goes to the error log only. *)
Lemma failed_fetch_sends_nothing_counterexample :
  let out := outside_at wednesday_0830 unreachable delivering in
  let self := plugin_with ["08:00"] "text" in
  let run := _send_to_groups out self (_moyu_fetch_text out self) false start in
  fst (_moyu_fetch_text out self start) = Ok ("接口报错: Cannot connect to host", false)
  /\ sends (history (snd run)) = []
  /\ sends (history (snd run))
     <> map (fun t => EvSend t (Plain "接口报错: Cannot connect to host")) (groups self)
  /\ In (EvLog ERROR "[推送] 失败: 接口报错: Cannot connect to host") (history (snd run)).
Proof.
  vm_compute. repeat split; try discriminate.
  repeat (try (left; reflexivity); right).
Qed.

(** C3, amended.  [_send_to_groups] never raises to its caller.  When the
    fetch returns a failure with its reason, nothing is sent to any group:
    the only thing done after the fetch is to write the reason to the error
    log. *)
Theorem failed_fetch_dispatch (out : outside) (self : plugin)
        (fetch_func : M (string * bool)) (is_image : bool) (w : world) :
  fst (_send_to_groups out self fetch_func is_image w) = Ok tt
  /\ forall reason w1,
      fetch_func w = (Ok (reason, false), w1) ->
      snd (_send_to_groups out self fetch_func is_image w)
      = emit (EvLog ERROR ("[推送] 失败: " ++ reason)) w1
      /\ sends (history (snd (_send_to_groups out self fetch_func is_image w)))
         = sends (history w1).
Proof.
  split; [apply send_to_groups_never_raises|].
  intros reason w1 E.
  rewrite (send_to_groups_failed_fetch out self fetch_func is_image reason w w1 E).
  simpl. split; [reflexivity|].
  rewrite sends_app. apply app_nil_r.
Qed.

(** The endpoint that cannot be reached: no send, one more log line. *)
Lemma failed_fetch_dispatch_witness :
  let out := outside_at wednesday_0830 unreachable delivering in
  let self := plugin_with ["08:00"] "text" in
  sends (history (snd (_send_to_groups out self (_moyu_fetch_text out self) false start)))
  = [].
Proof.
  intros out self.
  destruct (failed_fetch_dispatch out self (_moyu_fetch_text out self) false start)
    as [_ Hfailed].
  destruct (Hfailed "接口报错: Cannot connect to host"
                    (snd (_moyu_fetch_text out self start)) eq_refl) as [_ Hsends].
  rewrite Hsends. reflexivity.
Defined.

(* ------------------------------------------------------------------ *)
(** ** The pushes of one firing *)

Section SchedulerFacts.
Variable out : outside.
Variable self : plugin.

Lemma optional_push_ok (enabled : bool) (fetch_func : M (string * bool))
      (is_image : bool) (w : world) :
  fst ((if enabled then _send_to_groups out self fetch_func is_image else ret tt) w)
  = Ok tt.
Proof.
  destruct enabled; [apply send_to_groups_never_raises | reflexivity].
Qed.

Lemma bind_ok (A B : Type) (c : M A) (k : A -> M B) (a : A) (w : world) :
  fst (c w) = Ok a -> bind c k w = k a (snd (c w)).
Proof. unfold bind. destruct (c w) as [r w']. simpl. intros ->. reflexivity. Qed.



End SchedulerFacts.



(* ================================================================== *)
(** * Further properties of the code *)

(* ------------------------------------------------------------------ *)
(** ** Parsing a configured time *)

Lemma mk_time_sound (h m : Z) (t : time) :
  mk_time h m = Ok t -> t = Time h m /\ 0 <= h <= 23 /\ 0 <= m <= 59.
Proof.
  unfold mk_time.
  destruct ((0 <=? h) && (h <=? 23)) eqn:Eh; simpl; [|discriminate].
  destruct ((0 <=? m) && (m <=? 59)) eqn:Em; simpl; [|discriminate].
  intro H. injection H as <-.
  apply andb_true_iff in Eh. apply andb_true_iff in Em.
  destruct Eh as [Eh1 Eh2]. destruct Em as [Em1 Em2].
  apply Z.leb_le in Eh1. apply Z.leb_le in Eh2.
  apply Z.leb_le in Em1. apply Z.leb_le in Em2.
  repeat split; assumption.
Qed.

(** X1.  When [_parse_time] returns a time, the string has exactly one
    colon, the piece before it is the hour as [int] reads it, the piece
    after it the minute, and the hour is within 0..23 and the minute
    within 0..59.  A string with no colon, or with two or more, never gives
    a time. *)
Theorem parse_time_sound (time_str : string) (t : time) :
  _parse_time time_str = Ok t ->
  (exists a b,
      split ":" time_str = [a; b]
      /\ int a = Ok (t_hour t) /\ int b = Ok (t_minute t))
  /\ 0 <= t_hour t <= 23 /\ 0 <= t_minute t <= 59.
Proof.
  unfold _parse_time.
  destruct (split ":" time_str) as [|a [|b [|c rest]]]; try discriminate.
  - unfold rbind. destruct (int a); discriminate.
  - unfold rbind. destruct (int a) as [h|] eqn:Ea; [|discriminate].
    destruct (int b) as [m|] eqn:Eb; [|discriminate].
    intro H. apply mk_time_sound in H. destruct H as (-> & Hh & Hm).
    split; [|split; assumption].
    exists a, b. repeat split; assumption.
  - unfold rbind. destruct (int a); [|discriminate].
    destruct (int b); [|discriminate]. destruct (int c); discriminate.
Qed.

Lemma parse_time_sound_witness :
  (exists a b,
      split ":" " 8:30" = [a; b] /\ int a = Ok 8 /\ int b = Ok 30)
  /\ 0 <= 8 <= 23 /\ 0 <= 30 <= 59.
Proof. exact (parse_time_sound " 8:30" (Time 8 30) eq_refl). Defined.

Lemma range_spec (n k : Z) : 0 <= k < n -> In k (range n).
Proof.
  intro H. unfold range. apply in_map_iff. exists (Z.to_nat k).
  split; [lia|]. apply in_seq. lia.
Qed.

(** X2.  Every time of day written [HH:MM] with two digits each, and
    every one written without the leading zeros, is read by [_parse_time] as
    that hour and that minute. *)
Theorem parse_time_of_hhmm (h m : Z) :
  0 <= h <= 23 -> 0 <= m <= 59 ->
  _parse_time (hhmm h m) = Ok (Time h m)
  /\ _parse_time (hm h m) = Ok (Time h m).
Proof.
  intros Hh Hm.
  assert (Hall :
            forallb (fun h =>
              forallb (fun m =>
                match _parse_time (hhmm h m), _parse_time (hm h m) with
                | Ok (Time h1 m1), Ok (Time h2 m2) =>
                    (h1 =? h) && (m1 =? m) && (h2 =? h) && (m2 =? m)
                | _, _ => false
                end) (range 60)) (range 24) = true)
    by (vm_compute; reflexivity).
  rewrite forallb_forall in Hall.
  specialize (Hall h (range_spec 24 h ltac:(lia))).
  rewrite forallb_forall in Hall.
  specialize (Hall m (range_spec 60 m ltac:(lia))).
  destruct (_parse_time (hhmm h m)) as [[h1 m1]|]; [|discriminate].
  destruct (_parse_time (hm h m)) as [[h2 m2]|]; [|discriminate].
  apply andb_true_iff in Hall. destruct Hall as [Hall E4].
  apply andb_true_iff in Hall. destruct Hall as [Hall E3].
  apply andb_true_iff in Hall. destruct Hall as [E1 E2].
  apply Z.eqb_eq in E1. apply Z.eqb_eq in E2.
  apply Z.eqb_eq in E3. apply Z.eqb_eq in E4. subst. split; reflexivity.
Qed.

Lemma parse_time_of_hhmm_witness :
  _parse_time "08:05" = Ok (Time 8 5) /\ _parse_time "8:5" = Ok (Time 8 5).
Proof. exact (parse_time_of_hhmm 8 5 ltac:(lia) ltac:(lia)). Defined.

(* ------------------------------------------------------------------ *)
(** ** The configured times, printed and read back *)

Lemma split_cons_other (sep c : ascii) (s : string) :
  Ascii.eqb c sep = false ->
  exists p ps, split sep s = p :: ps /\ split sep (String c s) = String c p :: ps.
Proof.
  intro Hc. simpl. rewrite Hc.
  destruct (split sep s) as [|p ps] eqn:E.
  - destruct s; simpl in E; [discriminate|].
    destruct (Ascii.eqb a sep); [discriminate|].
    destruct (split sep s); discriminate.
  - exists p, ps. split; reflexivity.
Qed.

Lemma split_free (sep : ascii) (x : string) :
  free_of sep x = true -> split sep x = [x].
Proof.
  induction x as [|c x IH]; simpl; [reflexivity|].
  intro H. apply andb_true_iff in H. destruct H as [Hc Hx].
  apply negb_true_iff in Hc. rewrite Hc, (IH Hx). reflexivity.
Qed.

Lemma split_app_sep (sep : ascii) (x r : string) :
  free_of sep x = true -> split sep (x ++ String sep r) = x :: split sep r.
Proof.
  induction x as [|c x IH]; simpl.
  - intros _. rewrite Ascii.eqb_refl. reflexivity.
  - intro H. apply andb_true_iff in H. destruct H as [Hc Hx].
    apply negb_true_iff in Hc. rewrite Hc, (IH Hx). reflexivity.
Qed.

Lemma strip_after_space (p : string) : strip (String " " p) = strip p.
Proof. reflexivity. Qed.

(** X3.  The status command prints the configured times joined by a
    comma and a space; [__init__] splits its setting at the commas and
    strips each piece.  For a non-empty list of strings that hold no comma
    and have no white space at either end, what is printed is read back as
    the same list. *)
Theorem push_times_round_trip (xs : list string) :
  xs <> [] ->
  Forall (fun x => free_of "," x = true /\ strip x = x) xs ->
  split_push_time (join ", " xs) = xs.
Proof.
  unfold split_push_time.
  induction xs as [|x xs IH]; intros Hne Hall; [congruence|].
  inversion Hall as [|? ? [Hfree Hstrip] Hrest]; subst.
  destruct xs as [|y r].
  - simpl. rewrite (split_free "," x Hfree). simpl. rewrite Hstrip. reflexivity.
  - change (join ", " (x :: y :: r))
      with (x ++ String "," (String " " (join ", " (y :: r)))).
    rewrite (split_app_sep "," x _ Hfree).
    destruct (split_cons_other "," " " (join ", " (y :: r)) eq_refl)
      as (p & ps & Ep & ->).
    simpl map. rewrite Hstrip, strip_after_space.
    f_equal. specialize (IH ltac:(discriminate) Hrest).
    rewrite Ep in IH. exact IH.
Qed.

Lemma push_times_round_trip_witness :
  split_push_time (join ", " ["08:00"; "18:00"; "bad"]) = ["08:00"; "18:00"; "bad"].
Proof.
  apply push_times_round_trip; [discriminate|].
  repeat constructor.
Defined.

(* ------------------------------------------------------------------ *)
(** ** More on the next push time *)

Lemma leb_antisym (a b : datetime) : leb a b = true -> leb b a = true -> a = b.
Proof.
  rewrite !leb_not_earlier. unfold earlier.
  destruct a as [ao ah am asec aus], b as [bo bh bm bsec bus]. simpl.
  intros Hab Hba.
  assert (ao = bo) by lia. assert (ah = bh) by lia. assert (am = bm) by lia.
  assert (asec = bsec) by lia. assert (aus = bus) by lia.
  subst. reflexivity.
Qed.

Lemma min_datetime_permutation (c c' : datetime) (cs cs' : list datetime) :
  Permutation (c :: cs) (c' :: cs') -> min_datetime c cs = min_datetime c' cs'.
Proof.
  intro Hp. apply leb_antisym.
  - apply min_datetime_least. apply (Permutation_in _ (Permutation_sym Hp)).
    apply min_datetime_In.
  - apply min_datetime_least. apply (Permutation_in _ Hp). apply min_datetime_In.
Qed.

(** X4.  The order in which the times are configured does not matter: a
    rearranged list of push times gives the same next push time, or the
    same [ValueError]. *)
Theorem next_push_time_order_irrelevant (out : outside) (self : plugin)
        (times : list string) (w : world) :
  Permutation (push_times self) times ->
  fst (_get_next_push_time out self w)
  = fst (_get_next_push_time out (with_push_times self times) w).
Proof.
  intro Hp. rewrite !get_next_push_time_run. cbv zeta. simpl push_times.
  set (now := clock out (history w)).
  assert (Hc : Permutation (candidates_of now (push_times self)) (candidates_of now times))
    by (unfold candidates_of; apply Permutation_flat_map; exact Hp).
  destruct (candidates_of now (push_times self)) as [|c cs];
    destruct (candidates_of now times) as [|c' cs']; simpl.
  - reflexivity.
  - apply Permutation_nil in Hc. discriminate.
  - apply Permutation_sym, Permutation_nil in Hc. discriminate.
  - f_equal. apply min_datetime_permutation. exact Hc.
Qed.

Lemma next_push_time_order_irrelevant_witness :
  fst (_get_next_push_time (outside_at wednesday_0830 unreachable delivering)
                           (plugin_with ["18:00"; "oops"; "08:00"] "image") start)
  = fst (_get_next_push_time (outside_at wednesday_0830 unreachable delivering)
                             (plugin_with ["08:00"; "18:00"; "oops"] "image") start).
Proof.
  apply (next_push_time_order_irrelevant
           (outside_at wednesday_0830 unreachable delivering)
           (plugin_with ["18:00"; "oops"; "08:00"] "image")
           ["08:00"; "18:00"; "oops"] start).
  simpl. apply Permutation_sym.
  apply (Permutation_cons_app ["18:00"; "oops"] [] "08:00").
  simpl. apply Permutation_refl.
Defined.

Lemma spec_candidate_within_a_day (now : datetime) (t : time) :
  leb (spec_candidate now t)
      (DateTimeOf (ordinal now + 1) (hour now) (minute now) (second now)
                  (microsecond now)) = true.
Proof.
  unfold spec_candidate.
  destruct (leb _ now) eqn:E; apply leb_not_earlier.
  - apply leb_not_earlier in E. unfold earlier in *. simpl in *. lia.
  - unfold earlier. simpl. lia.
Qed.

(** X5.  The next push time is never more than one day ahead: when the
    clock reads a date before the last one a datetime can hold and some
    configured string is a valid time, a next push time is returned, and
    it is not after the instant of the clock reading moved to the next
    day. *)
Theorem next_push_time_within_a_day (out : outside) (self : plugin) (w : world) :
  let now := clock out (history w) in
  1 <= ordinal now < MAXORDINAL ->
  valid_triggers (push_times self) <> [] ->
  exists next tomorrow,
    fst (_get_next_push_time out self w) = Ok next
    /\ add_days now 1 = Ok tomorrow
    /\ leb next tomorrow = true.
Proof.
  intros now Hr Hv.
  rewrite get_next_push_time_run. fold now. cbv zeta.
  rewrite (candidates_of_in_range now (push_times self) Hr).
  destruct (map (spec_candidate now) (valid_triggers (push_times self)))
    as [|c cs] eqn:E.
  - destruct (valid_triggers (push_times self)); [congruence | discriminate].
  - assert (Hin : In (min_datetime c cs)
                    (map (spec_candidate now) (valid_triggers (push_times self))))
      by (rewrite E; apply min_datetime_In).
    apply in_map_iff in Hin. destruct Hin as (t & Ht & _).
    exists (min_datetime c cs),
      (DateTimeOf (ordinal now + 1) (hour now) (minute now) (second now) (microsecond now)).
    split; [reflexivity|]. split.
    + unfold add_days.
      replace ((1 <=? ordinal now + 1) && (ordinal now + 1 <=? MAXORDINAL)) with true;
        [reflexivity|].
      symmetry. apply andb_true_iff. split; apply Z.leb_le; lia.
    + rewrite <- Ht. apply spec_candidate_within_a_day.
Qed.

(** At 08:30 exactly, with 08:30 the only time, the next push is 08:30 of
    the next day: a full day ahead and no more. *)
Lemma next_push_time_within_a_day_witness :
  exists next tomorrow,
    fst (_get_next_push_time (outside_at wednesday_0830 unreachable delivering)
                             (plugin_with ["08:30"] "image") start) = Ok next
    /\ add_days wednesday_0830 1 = Ok tomorrow
    /\ leb next tomorrow = true.
Proof.
  apply (next_push_time_within_a_day
           (outside_at wednesday_0830 unreachable delivering)
           (plugin_with ["08:30"] "image") start).
  - vm_compute. split; [discriminate | reflexivity].
  - vm_compute. discriminate.
Defined.

Lemma warnings_of_are_warnings (now : datetime) (strs : list string) :
  Forall is_warning (warnings_of now strs)
  /\ (length (warnings_of now strs) <= length strs)%nat.
Proof.
  unfold warnings_of.
  induction strs as [|t_str strs [IH1 IH2]]; simpl; [split; [constructor | lia]|].
  destruct (candidate_of now t_str); simpl.
  - split; [exact IH1 | lia].
  - split; [constructor; [exact I | exact IH1] | lia].
Qed.

(** X6.  Computing the next push time reads the clock once, before
    anything else, and after that only writes warnings, at most one for
    each configured string: it makes no request, sends nothing, does not
    sleep, and leaves the files as they were. *)
Theorem next_push_time_effects (out : outside) (self : plugin) (w : world) :
  files (snd (_get_next_push_time out self w)) = files w
  /\ exists warns,
      history (snd (_get_next_push_time out self w))
      = (history w ++ EvNow :: warns)%list
      /\ Forall is_warning warns
      /\ (length warns <= length (push_times self))%nat.
Proof.
  rewrite get_next_push_time_run. cbv zeta.
  destruct (warnings_of_are_warnings (clock out (history w)) (push_times self))
    as [Hw Hlen].
  destruct (candidates_of _ _); simpl; (split; [reflexivity|]);
    exists (warnings_of (clock out (history w)) (push_times self));
    rewrite <- app_assoc; repeat split; assumption.
Qed.

(* ------------------------------------------------------------------ *)
(** ** Events a computation adds: how the bound composes *)

Section AddsOnly.
Variable P : event -> Prop.

Lemma adds_only_still (A : Type) (c : M A) :
  (forall w, snd (c w) = w) -> adds_only P c.
Proof.
  intros H w. exists []. rewrite H, app_nil_r. split; [reflexivity | constructor].
Qed.

Lemma adds_only_ret (A : Type) (a : A) : adds_only P (ret a).
Proof. apply adds_only_still. reflexivity. Qed.

Lemma adds_only_raise (A : Type) (e : exn) : adds_only P (@raise A e).
Proof. apply adds_only_still. reflexivity. Qed.

Lemma adds_only_lift (A : Type) (r : result A) : adds_only P (lift r).
Proof. apply adds_only_still. reflexivity. Qed.

Lemma adds_only_bind (A B : Type) (c : M A) (k : A -> M B) :
  adds_only P c -> (forall a, adds_only P (k a)) -> adds_only P (bind c k).
Proof.
  intros Hc Hk w. unfold bind.
  destruct (Hc w) as (n1 & H1 & F1).
  destruct (c w) as [[a|e] w1]; simpl in H1.
  - destruct (Hk a w1) as (n2 & H2 & F2).
    exists (n1 ++ n2)%list. rewrite H2, H1, app_assoc.
    split; [reflexivity | apply Forall_app; split; assumption].
  - exists n1. split; assumption.
Qed.

Lemma adds_only_try_except (A : Type) (c : M A) (handler : exn -> M A) :
  adds_only P c -> (forall e, adds_only P (handler e)) ->
  adds_only P (try_except c handler).
Proof.
  intros Hc Hh w. unfold try_except.
  destruct (Hc w) as (n1 & H1 & F1).
  destruct (c w) as [[a|e] w1]; simpl in H1.
  - exists n1. split; assumption.
  - destruct (Hh e w1) as (n2 & H2 & F2).
    exists (n1 ++ n2)%list. rewrite H2, H1, app_assoc.
    split; [reflexivity | apply Forall_app; split; assumption].
Qed.

Lemma adds_only_one (A : Type) (c : M A) (e : event) :
  (forall w, history (snd (c w)) = (history w ++ [e])%list) -> P e -> adds_only P c.
Proof.
  intros H He w. exists [e]. split; [apply H | constructor; [exact He | constructor]].
Qed.

Lemma adds_only_logger (lvl : level) (msg : string) :
  P (EvLog lvl msg) -> adds_only P (logger lvl msg).
Proof. apply adds_only_one. reflexivity. Qed.

Lemma adds_only_sleep (seconds : Z) : P (EvSleep seconds) -> adds_only P (sleep seconds).
Proof. apply adds_only_one. reflexivity. Qed.

Lemma adds_only_session : P EvSession -> adds_only P ClientSession.
Proof. apply adds_only_one. reflexivity. Qed.

Lemma adds_only_now (out : outside) : P EvNow -> adds_only P (datetime_now out).
Proof. apply adds_only_one. reflexivity. Qed.

Lemma adds_only_get (out : outside) (url : string) (t : Z) :
  P (EvGet url t) -> adds_only P (session_get out url t).
Proof. apply adds_only_one. reflexivity. Qed.

Lemma adds_only_send (out : outside) (target : string) (chain : MessageChain) :
  P (EvSend target chain) -> adds_only P (send_message out target chain).
Proof. apply adds_only_one. reflexivity. Qed.

Lemma adds_only_tempfile (out : outside) (sfx b : string) :
  (forall name, P (EvTempFile name b)) -> adds_only P (NamedTemporaryFile out sfx b).
Proof.
  intros H w. exists [EvTempFile (tmp_stem out (history w) ++ sfx) b].
  split; [reflexivity | constructor; [apply H | constructor]].
Qed.

Lemma adds_only_remove (path : string) :
  P (EvRemove path) -> adds_only P (os_remove path).
Proof.
  intros H w. exists [EvRemove path]. unfold os_remove.
  destruct (existsb _ _); (split; [reflexivity | constructor; [exact H | constructor]]).
Qed.

Lemma adds_only_for_each (A : Type) (xs : list A) (body : A -> M unit) :
  (forall x, adds_only P (body x)) -> adds_only P (for_each xs body).
Proof.
  intro H. induction xs as [|x xs IH]; simpl.
  - apply adds_only_ret.
  - apply adds_only_bind; [apply H | intros _; exact IH].
Qed.

Lemma adds_only_retry_loop (tag failure : string) (body : M string) (attempts : list Z) :
  adds_only P body ->
  (forall msg, P (EvLog ERROR msg)) -> P (EvSleep 1) ->
  adds_only P (retry_loop tag failure body attempts).
Proof.
  intros Hbody Hlog Hsleep.
  induction attempts as [|attempt rest IH]; simpl.
  - apply adds_only_ret.
  - apply adds_only_try_except.
    + apply adds_only_bind; [exact Hbody | intro; apply adds_only_ret].
    + intro e. apply adds_only_bind; [apply adds_only_logger, Hlog|].
      intros _. destruct (attempt =? _).
      * apply adds_only_ret.
      * apply adds_only_bind; [apply adds_only_sleep, Hsleep | intros _; exact IH].
Qed.

Hypothesis P_send : forall target chain, P (EvSend target chain).
Hypothesis P_sleep : forall seconds, P (EvSleep seconds).
Hypothesis P_remove : forall path, P (EvRemove path).
Hypothesis P_log : forall lvl msg, P (EvLog lvl msg).

Lemma adds_only_send_to_groups (out : outside) (self : plugin)
      (fetch_func : M (string * bool)) (is_image : bool) :
  adds_only P fetch_func ->
  adds_only P (_send_to_groups out self fetch_func is_image).
Proof.
  intro Hfetch. unfold _send_to_groups, send_to_each.
  apply adds_only_try_except; [|intro e; apply adds_only_logger, P_log].
  destruct is_image; (apply adds_only_bind; [exact Hfetch|]);
    intros [payload ok]; destruct ok; simpl; try apply adds_only_raise.
  - apply adds_only_bind.
    + apply adds_only_for_each. intro target.
      apply adds_only_bind; [apply adds_only_send, P_send|].
      intros _. apply adds_only_sleep, P_sleep.
    + intros _. apply adds_only_try_except;
        [apply adds_only_remove, P_remove | intro; apply adds_only_ret].
  - apply adds_only_for_each. intro target.
    apply adds_only_bind; [apply adds_only_send, P_send|].
    intros _. apply adds_only_sleep, P_sleep.
Qed.

Lemma adds_only_handle_fetch (out : outside)
      (event : Handlers.AstrMessageEvent)
      (image_func text_func : M (string * bool)) (fmt : string) :
  adds_only P (if String.eqb fmt "image" then image_func else text_func) ->
  adds_only P (Handlers._handle_fetch out event image_func text_func fmt).
Proof.
  intro Hfetch. unfold Handlers._handle_fetch, Handlers.event_send.
  apply adds_only_try_except; [|intro e; apply adds_only_send, P_send].
  destruct (String.eqb fmt "image"); (apply adds_only_bind; [exact Hfetch|]);
    intros [payload ok]; destruct ok; simpl; try (apply adds_only_send, P_send).
  apply adds_only_bind; [apply adds_only_send, P_send|].
  intros _. apply adds_only_try_except;
    [apply adds_only_remove, P_remove | intro; apply adds_only_ret].
Qed.

End AddsOnly.

(* ------------------------------------------------------------------ *)
(** ** The format that pushes and commands ask for *)

Section NativeFormat.
Variable out : outside.
Variable self : plugin.

Lemma generic_text_fetch_native (api_url fmt : string) :
  String.eqb fmt "image" = false ->
  adds_only (asks_only (native_url self api_url fmt))
            (_generic_fetch_text out self api_url fmt).
Proof.
  intro E. unfold _generic_fetch_text.
  apply adds_only_retry_loop; [|intro; exact I | exact I].
  unfold generic_text_attempt, native_url. rewrite E.
  apply adds_only_bind; [apply adds_only_session; exact I | intros _].
  apply adds_only_bind; [apply adds_only_get; reflexivity | intro resp].
  destruct (negb _); [apply adds_only_raise | apply adds_only_ret].
Qed.

Lemma generic_image_fetch_native (api_url fmt : string) :
  String.eqb fmt "image" = true ->
  adds_only (asks_only (native_url self api_url fmt))
            (_generic_fetch_image_path out self api_url fmt).
Proof.
  intro E. apply String.eqb_eq in E. subst fmt. unfold _generic_fetch_image_path.
  apply adds_only_retry_loop; [|intro; exact I | exact I].
  unfold generic_image_attempt, native_url, write_jpeg. simpl String.eqb. cbv iota.
  apply adds_only_bind; [apply adds_only_session; exact I | intros _].
  apply adds_only_bind; [apply adds_only_get; reflexivity | intro resp].
  destruct (negb _); [apply adds_only_raise|].
  apply adds_only_bind; [apply adds_only_ret | intro b].
  apply adds_only_tempfile. intro; exact I.
Qed.

(** The fetcher a generic feed uses for its configured format. *)
Lemma generic_choice_native (api_url fmt : string) :
  adds_only (asks_only (native_url self api_url fmt))
            (if String.eqb fmt "image"
             then _generic_fetch_image_path out self api_url fmt
             else _generic_fetch_text out self api_url fmt).
Proof.
  destruct (String.eqb fmt "image") eqn:E;
    [apply generic_image_fetch_native | apply generic_text_fetch_native]; exact E.
Qed.

Lemma news_choice_native :
  adds_only (asks_news self)
            (if String.eqb (format self) "image"
             then _fetch_news_image_path out self else _fetch_news_text out self).
Proof.
  destruct (String.eqb (format self) "image") eqn:E.
  - unfold _fetch_news_image_path.
    assert (Et : String.eqb (format self) "text" = false).
    { apply String.eqb_eq in E. rewrite E. reflexivity. }
    rewrite Et.
    apply adds_only_bind; [apply adds_only_now; exact I | intro now].
    apply adds_only_retry_loop; [|intro; exact I | exact I].
    unfold news_image_attempt, write_jpeg. simpl String.eqb. cbv iota.
    apply adds_only_bind; [apply adds_only_session; exact I | intros _].
    apply adds_only_bind; [apply adds_only_get | intro resp].
    { exists (strftime_ymd now). unfold native_news_url. rewrite E. reflexivity. }
    destruct (negb _); [apply adds_only_raise|].
    apply adds_only_tempfile. intro; exact I.
  - unfold _fetch_news_text. rewrite E.
    apply adds_only_bind; [apply adds_only_now; exact I | intro now].
    apply adds_only_retry_loop; [|intro; exact I | exact I].
    unfold news_text_attempt. simpl String.eqb. cbv iota.
    apply adds_only_bind; [apply adds_only_session; exact I | intros _].
    apply adds_only_bind; [apply adds_only_get | intro resp].
    { exists (strftime_ymd now). unfold native_news_url. rewrite E. reflexivity. }
    destruct (negb _); [apply adds_only_raise | apply adds_only_ret].
Qed.

End NativeFormat.

(** X7.  A push of a firing and a command ask each feed for the
    configured format only: every request of the calendar, gold and AI
    feeds goes to the feed's address with [format=image] when the format is
    [image] and with [format=text] otherwise, and every request of the news
    goes to the news address with a date and that same format.  No request
    with [format=json] is made and no address taken out of an answer is
    followed: the JSON branches of the fetchers are not reached from the
    pushes and commands. *)
Theorem pushes_and_commands_ask_native_format (out : outside) (self : plugin) :
  (adds_only (asks_news self) (Scheduler.push_news out self)
   /\ adds_only (asks_only (native_url self (moyu_api self) (moyu_format self)))
                (push_moyu out self)
   /\ adds_only (asks_only (native_url self (gold_api self) (gold_format self)))
                (push_gold out self)
   /\ adds_only (asks_only (native_url self (ai_api self) (ai_format self)))
                (push_ai out self))
  /\ forall event,
      adds_only (asks_news self) (Handlers.get_today_news out self event)
      /\ adds_only (asks_news self) (Handlers.push_news out self event)
      /\ adds_only (asks_only (native_url self (moyu_api self) (moyu_format self)))
                   (Handlers.cmd_moyu_simple out self event)
      /\ adds_only (asks_only (native_url self (gold_api self) (gold_format self)))
                   (Handlers.cmd_gold_simple out self event)
      /\ adds_only (asks_only (native_url self (ai_api self) (ai_format self)))
                   (Handlers.cmd_ai_simple out self event).
Proof.
  split; [|intro event]; repeat split.
  - apply adds_only_send_to_groups; try (intros; exact I). apply news_choice_native.
  - apply adds_only_send_to_groups; try (intros; exact I). apply generic_choice_native.
  - apply adds_only_send_to_groups; try (intros; exact I). apply generic_choice_native.
  - apply adds_only_send_to_groups; try (intros; exact I). apply generic_choice_native.
  - apply adds_only_handle_fetch; try (intros; exact I). apply news_choice_native.
  - apply adds_only_bind; [|intro; apply adds_only_ret].
    apply adds_only_send_to_groups; try (intros; exact I). apply news_choice_native.
  - apply adds_only_handle_fetch; try (intros; exact I). apply generic_choice_native.
  - apply adds_only_handle_fetch; try (intros; exact I). apply generic_choice_native.
  - apply adds_only_handle_fetch; try (intros; exact I). apply generic_choice_native.
Qed.

(* ------------------------------------------------------------------ *)
(** ** Temporary files *)

Section FileFacts.
Variable out : outside.
Variable self : plugin.

Lemma retry_loop_files (tag failure : string) (body : M string) :
  attempt_files body ->
  forall attempts w, files_after w (retry_loop tag failure body attempts w).
Proof.
  intros Hbody attempts.
  induction attempts as [|attempt rest IH]; intro w; [reflexivity|].
  simpl. unfold try_except, bind, ret, logger, sleep.
  specialize (Hbody w). destruct (body w) as [[v|e] w1]; [exact Hbody|].
  destruct (attempt =? _); simpl; [exact Hbody|].
  match goal with
  | |- files_after _ (retry_loop _ _ _ _ ?w') =>
      specialize (IH w'); destruct (retry_loop tag failure body rest w')
        as [[[payload [|]]|] w2]; simpl in *; congruence
  end.
Qed.

Lemma retry_loop_keeps_files (tag failure : string) (body : M string) :
  keeps_files body -> forall attempts, keeps_files (retry_loop tag failure body attempts).
Proof.
  intros Hbody attempts.
  induction attempts as [|attempt rest IH]; intro w; [reflexivity|].
  simpl. unfold try_except, bind, ret, logger, sleep.
  specialize (Hbody w). destruct (body w) as [[v|e] w1]; [exact Hbody|].
  destruct (attempt =? _); simpl; [exact Hbody|].
  rewrite IH. exact Hbody.
Qed.

Lemma generic_image_attempt_files (api_url fmt : string) :
  attempt_files (generic_image_attempt out self api_url fmt).
Proof. intro w. unfold generic_image_attempt. run_attempt; reflexivity. Qed.

Lemma news_image_attempt_files (fmt date : string) :
  attempt_files (news_image_attempt out self fmt date).
Proof. intro w. unfold news_image_attempt. run_attempt; reflexivity. Qed.

Lemma generic_text_attempt_keeps_files (api_url fmt : string) :
  keeps_files (generic_text_attempt out self api_url fmt).
Proof. intro w. unfold generic_text_attempt. run_attempt; reflexivity. Qed.

Lemma news_text_attempt_keeps_files (fmt date : string) :
  keeps_files (news_text_attempt out self fmt date).
Proof. intro w. unfold news_text_attempt. run_attempt; reflexivity. Qed.

Lemma generic_fetch_image_path_files (api_url fmt : string) (w : world) :
  files_after w (_generic_fetch_image_path out self api_url fmt w).
Proof. apply retry_loop_files. apply generic_image_attempt_files. Qed.

End FileFacts.

(** X8.  A fetch writes a file only when it is an image fetch that
    succeeds, and then exactly one: the file whose path it returns.  An
    image fetch that fails, after however many attempts, leaves the files
    as they were, and so does every text fetch.  No fetch removes a file,
    and none raises. *)
Theorem fetch_files (out : outside) (self : plugin) :
  (forall api_url fmt w,
      files_after w (_generic_fetch_image_path out self api_url fmt w))
  /\ (forall w, files_after w (_fetch_news_image_path out self w))
  /\ (forall api_url fmt, keeps_files (_generic_fetch_text out self api_url fmt))
  /\ keeps_files (_fetch_news_text out self).
Proof.
  split; [|split; [|split]].
  - intros. apply generic_fetch_image_path_files.
  - intro w. unfold _fetch_news_image_path, bind, datetime_now.
    apply (retry_loop_files _ _ _ (news_image_attempt_files out self _ _)
                            _ (emit EvNow w)).
  - intros api_url fmt. apply retry_loop_keeps_files.
    apply generic_text_attempt_keeps_files.
  - intro w. unfold _fetch_news_text, bind, datetime_now.
    apply (retry_loop_keeps_files _ _ _ (news_text_attempt_keeps_files out self _ _)
                                  _ (emit EvNow w)).
Qed.

Lemma filter_absent (path : string) (l : list string) :
  ~ In path l -> filter (fun p => negb (String.eqb path p)) l = l.
Proof.
  induction l as [|x l IH]; simpl; [reflexivity|].
  intro H. destruct (String.eqb path x) eqn:E.
  - apply String.eqb_eq in E. exfalso. apply H. left. symmetry. exact E.
  - simpl. rewrite IH; [reflexivity|]. intro Hin. apply H. right. exact Hin.
Qed.

(** X9.  An image push that fetches its picture and delivers it to every
    group leaves the disk as it found it: the file the fetch wrote, under a
    name that was not in use, is removed again after the last send. *)
Theorem delivered_image_push_leaves_no_file (out : outside) (self : plugin)
        (api_url fmt path : string) (w w1 : world) :
  _generic_fetch_image_path out self api_url fmt w = (Ok (path, true), w1) ->
  ~ In path (files w) ->
  all_delivered out (FileImage path) (history w1) (groups self) ->
  files (snd (_send_to_groups out self
                (_generic_fetch_image_path out self api_url fmt) true w))
  = files w.
Proof.
  intros E Hfresh Hall.
  pose proof (generic_fetch_image_path_files out self api_url fmt w) as Hfiles.
  rewrite E in Hfiles. simpl in Hfiles.
  unfold _send_to_groups, try_except at 1, bind.
  rewrite E. change (negb true) with false. cbv beta iota.
  rewrite (fanout_delivered out (FileImage path) (groups self) w1 Hall).
  unfold try_except, os_remove. simpl files. rewrite Hfiles. simpl existsb.
  rewrite String.eqb_refl. simpl.
  rewrite String.eqb_refl. simpl. apply filter_absent. exact Hfresh.
Qed.

Lemma delivered_image_push_leaves_no_file_witness :
  files (snd (_send_to_groups
                (outside_at wednesday_0830 (answering (plain_text "JPEG")) delivering)
                (plugin_with ["08:00"] "image")
                (_generic_fetch_image_path
                   (outside_at wednesday_0830 (answering (plain_text "JPEG")) delivering)
                   (plugin_with ["08:00"] "image")
                   "https://api.nycnm.cn/API/moyu.php" "image")
                true start))
  = [].
Proof.
  apply (delivered_image_push_leaves_no_file
           (outside_at wednesday_0830 (answering (plain_text "JPEG")) delivering)
           (plugin_with ["08:00"] "image")
           "https://api.nycnm.cn/API/moyu.php" "image" "/tmp/tmpk3v9x2qa.jpeg" start
           (World [EvSession;
                   EvGet "https://api.nycnm.cn/API/moyu.php?format=image" 30;
                   EvTempFile "/tmp/tmpk3v9x2qa.jpeg" "JPEG"]
                  ["/tmp/tmpk3v9x2qa.jpeg"])).
  - reflexivity.
  - intros [].
  - vm_compute. auto.
Defined.

(* ------------------------------------------------------------------ *)
(** ** More on the fan-out *)

(** X10.  After a fetch that gave a text, [_send_to_groups] sends that
    text to the groups in order and sleeps two seconds after each send
    that is delivered, the last one too; it removes nothing and leaves the
    files as they were.  A send that raises is logged and ends the fan-out:
    the groups after it get nothing. *)
Theorem send_text_to_groups_spec (out : outside) (self : plugin)
        (fetch_func : M (string * bool)) (content : string) (w w1 : world) :
  fetch_func w = (Ok (content, true), w1) ->
  let chain := Plain content in
  let run := _send_to_groups out self fetch_func false w in
  (all_delivered out chain (history w1) (groups self) ->
   run = (Ok tt, World (history w1 ++ paced chain (groups self)) (files w1)))
  /\ (forall before target after e,
         groups self = (before ++ target :: after)%list ->
         all_delivered out chain (history w1) before ->
         transport out (history w1 ++ paced chain before) target chain = Some e ->
         run = (Ok tt,
                World (history w1 ++ paced chain before
                         ++ [EvSend target chain;
                             EvLog ERROR ("[推送] 失败: " ++ exn_msg e)])
                      (files w1))).
Proof.
  intros E chain run. subst run chain. unfold _send_to_groups, try_except, bind.
  rewrite E. change (negb true) with false. cbv beta iota. split.
  - intro Hall.
    rewrite (fanout_delivered out (Plain content) (groups self) w1 Hall). reflexivity.
  - intros before target after e Hg Hall Hfail. rewrite Hg.
    rewrite (fanout_failure out (Plain content) before w1 target after e Hall Hfail).
    unfold logger, emit. simpl. rewrite <- !app_assoc. reflexivity.
Qed.

Lemma send_text_to_groups_spec_witness :
  let out := outside_at wednesday_0830 (answering (plain_text "ok")) second_send_fails in
  let self := plugin_with ["08:00"] "text" in
  snd (_send_to_groups out self (_moyu_fetch_text out self) false start)
  = World [EvSession; EvGet "https://api.nycnm.cn/API/moyu.php?format=text" 30;
           EvSend "group:1" (Plain "ok"); EvSleep 2;
           EvSend "group:2" (Plain "ok");
           EvLog ERROR "[推送] 失败: send failed"] [].
Proof.
  intros out self.
  destruct (send_text_to_groups_spec
              out self (_moyu_fetch_text out self) "ok" start
              (World [EvSession; EvGet "https://api.nycnm.cn/API/moyu.php?format=text" 30] [])
              eq_refl) as [_ Hfail].
  rewrite (Hfail ["group:1"] "group:2" ["group:3"] (Raise Exception "send failed")
                 eq_refl (conj eq_refl I) eq_refl).
  reflexivity.
Defined.

(** X11.  When a send of an image fan-out raises, [os.remove] is not
    called: the world is left as the fetch and the sends made so far left
    it, plus the log line, so the temporary file is still on disk. *)
Theorem failed_image_send_leaves_file (out : outside) (self : plugin)
        (fetch_func : M (string * bool)) (path : string) (w w1 : world)
        (before : list string) (target : string) (after : list string) (e : exn) :
  fetch_func w = (Ok (path, true), w1) ->
  groups self = (before ++ target :: after)%list ->
  all_delivered out (FileImage path) (history w1) before ->
  transport out (history w1 ++ paced (FileImage path) before) target (FileImage path)
  = Some e ->
  let run := _send_to_groups out self fetch_func true w in
  files (snd run) = files w1
  /\ removals path (history (snd run)) = removals path (history w1)
  /\ (In path (files w1) -> In path (files (snd run))).
Proof.
  intros E Hg Hall Hfail run. subst run.
  rewrite (send_image_failed_send out self fetch_func path w w1
             before target after e E Hg Hall Hfail).
  cbn [snd files history]. split; [reflexivity|]. split; [|auto].
  rewrite !removals_app, removals_paced.
  change (removals path [EvSend target (FileImage path);
                         EvLog ERROR ("[推送] 失败: " ++ exn_msg e)]) with 0%nat.
  lia.
Qed.

Lemma failed_image_send_leaves_file_witness :
  let out := outside_at wednesday_0830 (answering (plain_text "JPEG")) second_send_fails in
  let self := plugin_with ["08:00"] "image" in
  files (snd (_send_to_groups out self (_moyu_fetch_image_path out self) true start))
  = ["/tmp/tmpk3v9x2qa.jpeg"].
Proof.
  intros out self.
  destruct (failed_image_send_leaves_file
              out self (_moyu_fetch_image_path out self) "/tmp/tmpk3v9x2qa.jpeg" start
              (World [EvSession;
                      EvGet "https://api.nycnm.cn/API/moyu.php?format=image" 30;
                      EvTempFile "/tmp/tmpk3v9x2qa.jpeg" "JPEG"]
                     ["/tmp/tmpk3v9x2qa.jpeg"])
              ["group:1"] "group:2" ["group:3"] (Raise Exception "send failed")
              eq_refl eq_refl (conj eq_refl I) eq_refl) as [Hfiles _].
  rewrite Hfiles. reflexivity.
Defined.

(* ------------------------------------------------------------------ *)
(** ** The commands *)

(** X12.  A command runs the fetcher of its format, the image fetcher for
    [image] and the text fetcher otherwise, and answers the conversation it
    came from.  When the answer is delivered it is the only send: the
    picture when an image fetch succeeded, which is then removed from disk
    by one call of [os.remove]; the text when a text fetch succeeded; and,
    when the fetch failed, the reason of the failure as a text.  After the
    fetch nothing else happens: no log line, no sleep, no second send. *)
Theorem handle_fetch_reply (out : outside) (event : Handlers.AstrMessageEvent)
        (image_func text_func : M (string * bool)) (fmt payload : string) (ok : bool)
        (w w1 : world) :
  (if String.eqb fmt "image" then image_func else text_func) w = (Ok (payload, ok), w1) ->
  let as_image := String.eqb fmt "image" && ok in
  let chain := if as_image then FileImage payload else Plain payload in
  transport out (history w1) (Handlers.origin event) chain = None ->
  exists fs,
    Handlers._handle_fetch out event image_func text_func fmt w
    = (Ok tt,
       World (history w1 ++ EvSend (Handlers.origin event) chain
                :: (if as_image then [EvRemove payload] else []))
             fs)
    /\ (if as_image then ~ In payload fs else fs = files w1).
Proof.
  intros E as_image chain Hsent. subst as_image chain.
  unfold Handlers._handle_fetch, Handlers.event_send, try_except at 1, bind.
  destruct (String.eqb fmt "image"); rewrite E; destruct ok; simpl in Hsent |- *;
    unfold send_message; rewrite Hsent.
  - destruct (remove_quietly payload
                (emit (EvSend (Handlers.origin event) (FileImage payload)) w1))
      as (fs & Hrm & Hgone).
    rewrite Hrm. exists fs. simpl. rewrite <- app_assoc. split; [reflexivity | exact Hgone].
  - exists (files w1). split; reflexivity.
  - exists (files w1). split; reflexivity.
  - exists (files w1). split; reflexivity.
Qed.

(** A text command with an endpoint that cannot be reached: the one send
    is the reason of the failure, to the conversation of the command. *)
Lemma handle_fetch_reply_witness :
  let out := outside_at wednesday_0830 unreachable delivering in
  let self := plugin_with ["08:00"] "text" in
  sends (history (snd (Handlers.cmd_moyu_simple out self (Handlers.EventOf "user:7" "Li")
                                                start)))
  = [EvSend "user:7" (Plain "接口报错: Cannot connect to host")].
Proof.
  intros out self.
  destruct (handle_fetch_reply
              out (Handlers.EventOf "user:7" "Li")
              (_moyu_fetch_image_path out self) (_moyu_fetch_text out self) "text"
              "接口报错: Cannot connect to host" false start
              (snd (_moyu_fetch_text out self start)) eq_refl eq_refl)
    as (fs & Hrun & _).
  unfold Handlers.cmd_moyu_simple.
  change (moyu_format self) with "text".
  rewrite Hrun. vm_compute. reflexivity.
Defined.

(** X13.  When the answer of a command cannot be sent, the command tries
    one more send, the text [获取失败: ] followed by the error, and after
    the fetch that is all: nothing is logged, [os.remove] is not called, so
    a picture that was fetched stays on disk, and the command raises
    exactly when this second send raises too. *)
Theorem handle_fetch_failed_reply (out : outside) (event : Handlers.AstrMessageEvent)
        (image_func text_func : M (string * bool)) (fmt payload : string) (ok : bool)
        (w w1 : world) (e : exn) :
  (if String.eqb fmt "image" then image_func else text_func) w = (Ok (payload, ok), w1) ->
  let chain := if String.eqb fmt "image" && ok then FileImage payload else Plain payload in
  let report := Plain ("获取失败: " ++ exn_msg e) in
  transport out (history w1) (Handlers.origin event) chain = Some e ->
  Handlers._handle_fetch out event image_func text_func fmt w
  = (match transport out (history w1 ++ [EvSend (Handlers.origin event) chain])
                     (Handlers.origin event) report with
     | None => Ok tt
     | Some e' => Raised e'
     end,
     World (history w1 ++ [EvSend (Handlers.origin event) chain;
                           EvSend (Handlers.origin event) report])
           (files w1)).
Proof.
  intros E chain report Hfail. subst chain report.
  unfold Handlers._handle_fetch, Handlers.event_send, try_except at 1, bind.
  destruct (String.eqb fmt "image"); rewrite E; destruct ok; simpl in Hfail |- *;
    unfold send_message at 1; rewrite Hfail; unfold send_message, emit; simpl;
      rewrite <- app_assoc; reflexivity.
Qed.

(** An image command whose picture cannot be sent, with a transport that
    refuses every send: two sends are tried, the picture stays on disk and
    the command raises. *)
Lemma handle_fetch_failed_reply_witness :
  let out := outside_at wednesday_0830 (answering (plain_text "JPEG"))
                        (fun _ _ _ => Some (Raise Exception "send failed")) in
  let self := plugin_with ["08:00"] "image" in
  let run := Handlers.cmd_moyu_simple out self (Handlers.EventOf "user:7" "Li") start in
  fst run = Raised (Raise Exception "send failed")
  /\ length (sends (history (snd run))) = 2%nat
  /\ files (snd run) = ["/tmp/tmpk3v9x2qa.jpeg"].
Proof.
  intros out self run. subst run. unfold Handlers.cmd_moyu_simple.
  change (moyu_format self) with "image".
  rewrite (handle_fetch_failed_reply
             out (Handlers.EventOf "user:7" "Li")
             (_moyu_fetch_image_path out self) (_moyu_fetch_text out self) "image"
             "/tmp/tmpk3v9x2qa.jpeg" true start
             (World [EvSession;
                     EvGet "https://api.nycnm.cn/API/moyu.php?format=image" 30;
                     EvTempFile "/tmp/tmpk3v9x2qa.jpeg" "JPEG"]
                    ["/tmp/tmpk3v9x2qa.jpeg"])
             (Raise Exception "send failed") eq_refl eq_refl).
  repeat split.
Defined.

(** X14.  The admin command [push_news] always yields its acknowledgement
    [<sender>: 已推送新闻], and never raises, whatever became of the push:
    the world it leaves is the one the push of the news leaves. *)
Theorem push_news_acknowledges (out : outside) (self : plugin)
        (event : Handlers.AstrMessageEvent) (w : world) :
  Handlers.push_news out self event w
  = (Ok (Handlers.sender_name event ++ ": 已推送新闻"),
     snd (Scheduler.push_news out self w)).
Proof.
  unfold Handlers.push_news.
  rewrite (bind_ok _ _ _ _ tt w (send_to_groups_never_raises out self _ _ w)).
  reflexivity.
Qed.

(* ------------------------------------------------------------------ *)
(** ** The pushes of one firing, one after the other *)

(** X15.  The pushes of a firing never raise, and none keeps a later one
    from being made: each enabled push starts in the world the one before
    it left, whether that one fetched, sent or failed.  With the AI digest
    disabled the clock is not read; with every feed disabled the firing
    does nothing at all. *)
Theorem daily_task_pushes_in_sequence (out : outside) (self : plugin) (w : world) :
  let after_news :=
    snd ((if enable_news self then Scheduler.push_news out self else ret tt) w) in
  let after_moyu :=
    snd ((if enable_moyu self then push_moyu out self else ret tt) after_news) in
  let after_gold :=
    snd ((if enable_gold self then push_gold out self else ret tt) after_moyu) in
  fst (_daily_task_pushes out self w) = Ok tt
  /\ snd (_daily_task_pushes out self w)
     = snd ((if enable_ai self then
               now <- datetime_now out ;;
               if ai_pushes_on (weekday now) then push_ai out self
               else logger INFO "[AI资讯] 周末不推送"
             else ret tt) after_gold)
  /\ (enable_ai self = false -> snd (_daily_task_pushes out self w) = after_gold)
  /\ (enable_news self = false -> enable_moyu self = false ->
      enable_gold self = false -> enable_ai self = false ->
      _daily_task_pushes out self w = (Ok tt, w)).
Proof.
  intros after_news after_moyu after_gold.
  assert (Hrun : _daily_task_pushes out self w
                 = (if enable_ai self then
                      now <- datetime_now out ;;
                      if ai_pushes_on (weekday now) then push_ai out self
                      else logger INFO "[AI资讯] 周末不推送"
                    else ret tt) after_gold).
  { subst after_gold after_moyu after_news.
    unfold _daily_task_pushes, Scheduler.push_news, push_moyu, push_gold.
    rewrite (bind_ok _ _ _ _ tt w (optional_push_ok out self _ _ _ w)).
    rewrite (bind_ok _ _ _ _ tt _ (optional_push_ok out self _ _ _ _)).
    rewrite (bind_ok _ _ _ _ tt _ (optional_push_ok out self _ _ _ _)).
    reflexivity. }
  rewrite Hrun. split; [|split; [reflexivity|split]].
  - destruct (enable_ai self); [|reflexivity].
    unfold bind, datetime_now. destruct (ai_pushes_on _); [|reflexivity].
    apply send_to_groups_never_raises.
  - intros ->. reflexivity.
  - intros Hn Hm Hg Ha. subst after_gold after_moyu after_news.
    rewrite Hn, Hm, Hg, Ha. reflexivity.
Qed.

(* ------------------------------------------------------------------ *)
(** ** More on the extractors *)

Lemma first_truthy_map (A : Type) (walk : json -> option string) (f : A -> json)
      (l : list A) :
  first_truthy (fun x => walk (f x)) l = first_truthy walk (map f l).
Proof.
  induction l as [|x l IH]; simpl; [reflexivity|]. rewrite IH. reflexivity.
Qed.

(** X16.  The keys of an object play no part: both walkers give on an
    object what they give on the array of its values, so a key is never
    returned, not even one that looks like the address of an image. *)
Theorem extractors_ignore_keys (fields : list (string * json)) :
  _extract_first_string (JObj fields) = _extract_first_string (JArr (map snd fields))
  /\ _extract_first_image_url (JObj fields)
     = _extract_first_image_url (JArr (map snd fields)).
Proof.
  split; simpl.
  - apply (first_truthy_map (string * json) _extract_first_string snd).
  - apply (first_truthy_map (string * json) _extract_first_image_url snd).
Qed.

(* ------------------------------------------------------------------ *)
(** ** The news as JSON *)

(** X17.  An attempt of [_fetch_news_text] that asked for JSON and was
    answered 200 with a document [data]: when [data] is not an object the
    attempt raises [AttributeError], and so counts as failed; when [data]
    is an object without the key [data] the attempt succeeds, and its text
    is the headline alone, dated with the day of the request. *)
Theorem news_text_json_edges (out : outside) (self : plugin) (date : string)
        (w : world) (resp : response) (data : json) :
  let url := with_api_key self (news_api self ++ "?date=" ++ date ++ "&format=" ++ "json") in
  http out (history w ++ [EvSession]) url = Ok resp ->
  status resp = 200 ->
  json_doc resp = Ok data ->
  ((forall fields, data <> JObj fields) ->
   fst (news_text_attempt out self "json" date w)
   = Raised (Raise AttributeError
               ("'" ++ type_name data ++ "' object has no attribute 'get'")))
  /\ (forall fields,
         data = JObj fields -> lookup "data" fields = None ->
         fst (news_text_attempt out self "json" date w)
         = Ok (date ++ " 每日60秒新闻")).
Proof.
  intros url Hget Hstatus Hjson.
  assert (Hreduce : forall r : result string,
             fst ((payload <- lift (get data "data" (JObj [])) ;;
                   date_field <- lift (get payload "date" JNull) ;;
                   tip_field <- lift (get payload "tip" JNull) ;;
                   news_field <- lift (get payload "news" JNull) ;;
                   items <- lift (iterate (or_else news_field (JArr []))) ;;
                   ret (join (String (ascii_of_nat 10) "")
                             (if truthy (or_else tip_field (JStr ""))
                              then List.app
                                     ((py_str (or_else date_field (JStr date))
                                       ++ " 每日60秒新闻")
                                        :: map (fun item => "• " ++ py_str item) items)
                                     ["提示：" ++ py_str (or_else tip_field (JStr ""))]
                              else (py_str (or_else date_field (JStr date))
                                    ++ " 每日60秒新闻")
                                     :: map (fun item => "• " ++ py_str item) items)))
                    (emit (EvGet url (timeout self)) (emit EvSession w))) = r ->
             fst (news_text_attempt out self "json" date w) = r).
  { intros r <-.
    unfold news_text_attempt. fold url.
    unfold bind at 1, ClientSession at 1.
    unfold bind at 1, session_get at 1.
    change (history (emit EvSession w)) with (history w ++ [EvSession])%list.
    rewrite Hget, Hstatus.
    change (negb (200 =? 200)) with false. cbv iota.
    change (String.eqb "json" "json") with true. cbv iota.
    unfold bind at 1, lift at 1. rewrite Hjson. reflexivity. }
  split.
  - intro Hnot. apply Hreduce. unfold bind at 1, lift at 1.
    destruct data; try reflexivity. exfalso. eapply Hnot. reflexivity.
  - intros fields -> Hmissing. apply Hreduce.
    unfold bind at 1. unfold lift at 1. unfold get at 1. rewrite Hmissing.
    reflexivity.
Qed.

(** The answers [[]] and [{"code": 200}]. *)
Lemma news_text_json_edges_witness :
  fst (news_text_attempt
         (outside_at wednesday_0830 (answering (json_answer (JArr []))) delivering)
         (plugin_with ["08:00"] "image") "json" "2026-11-04" start)
  = Raised (Raise AttributeError "'list' object has no attribute 'get'")
  /\ fst (news_text_attempt
            (outside_at wednesday_0830
                        (answering (json_answer (JObj [("code", JInt 200)]))) delivering)
            (plugin_with ["08:00"] "image") "json" "2026-11-04" start)
     = Ok "2026-11-04 每日60秒新闻".
Proof.
  split.
  - destruct (news_text_json_edges
                (outside_at wednesday_0830 (answering (json_answer (JArr []))) delivering)
                (plugin_with ["08:00"] "image") "2026-11-04" start
                (json_answer (JArr [])) (JArr []) eq_refl eq_refl eq_refl) as [H _].
    apply H. intros fields. discriminate.
  - destruct (news_text_json_edges
                (outside_at wednesday_0830
                            (answering (json_answer (JObj [("code", JInt 200)]))) delivering)
                (plugin_with ["08:00"] "image") "2026-11-04" start
                (json_answer (JObj [("code", JInt 200)])) (JObj [("code", JInt 200)])
                eq_refl eq_refl eq_refl) as [_ H].
    apply (H [("code", JInt 200)]); reflexivity.
Defined.
